(** * cloud-init upstream release driver: the cache, the version heuristics,
      the bug-description template and the stage gate

    A shallow embedding of [scripts/cloud-init-upstream-release.py].

    Python [str] values are modelled as [string]: a sequence of code points
    below 256, with Python's tables for whitespace, line boundaries and case
    restricted to that range.  Python [int] is [Z]. *)

From Stdlib Require Import ZArith Ascii String DecimalString Lia.
From stdpp Require Import gmap strings list.

Local Open Scope Z_scope.

(** ** Python string primitives *)

Module PyStr.

Definition LF : ascii := "010"%char.
Definition CR : ascii := "013"%char.

Definition code (c : ascii) : N := N_of_ascii c.

(** [str.isspace] on a single code point below 256: U+0009..U+000D,
    U+001C..U+001F, U+0020, U+0085 and U+00A0. *)
Definition is_space (c : ascii) : bool :=
  let n := code c in
  ((9 <=? n) && (n <=? 13) || (28 <=? n) && (n <=? 32)
   || (n =? 133) || (n =? 160))%N.

(** The line boundaries of [str.splitlines] below 256. *)
Definition is_linebreak (c : ascii) : bool :=
  let n := code c in
  ((10 <=? n) && (n <=? 13) || (28 <=? n) && (n <=? 30) || (n =? 133))%N.

(** [str.lower] on a single code point below 256. *)
Definition lower_char (c : ascii) : ascii :=
  let n := code c in
  if ((65 <=? n) && (n <=? 90)
      || (192 <=? n) && (n <=? 222) && negb (n =? 215))%N
  then ascii_of_N (n + 32) else c.

Fixpoint lower (s : string) : string :=
  match s with
  | EmptyString => EmptyString
  | String c r => String (lower_char c) (lower r)
  end.

Fixpoint lstrip (s : string) : string :=
  match s with
  | EmptyString => EmptyString
  | String c r => if is_space c then lstrip r else s
  end.

Fixpoint rstrip (s : string) : string :=
  match s with
  | EmptyString => EmptyString
  | String c r =>
      match rstrip r with
      | EmptyString => if is_space c then EmptyString else String c EmptyString
      | r' => String c r'
      end
  end.

Definition strip (s : string) : string := rstrip (lstrip s).

(** Truth value of a string: [bool(s)]. *)
Definition truthy (s : string) : bool :=
  match s with EmptyString => false | _ => true end.

(** [s.startswith(p)]. *)
Fixpoint startswith (p s : string) : bool :=
  match p, s with
  | EmptyString, _ => true
  | String a p', String b s' => if decide (a = b) then startswith p' s' else false
  | String _ _, EmptyString => false
  end.

Fixpoint drop (n : nat) (s : string) : string :=
  match n, s with
  | O, _ => s
  | S n', String _ r => drop n' r
  | S _, EmptyString => EmptyString
  end.

Fixpoint take (n : nat) (s : string) : string :=
  match n, s with
  | S n', String c r => String c (take n' r)
  | _, _ => EmptyString
  end.

(** [s[:-k]] for a positive [k]. *)
Definition drop_last (k : nat) (s : string) : string :=
  take (String.length s - k) s.

(** [s.split(sep)] for a non-empty [sep]: leftmost non-overlapping
    occurrences.  [skip] counts the characters of a matched separator that
    are still to be consumed. *)
Fixpoint split_go (sep : string) (skip : nat) (s : string) : list string :=
  match s with
  | EmptyString => [EmptyString]
  | String c r =>
      match skip with
      | S k => split_go sep k r
      | O =>
          if startswith sep s
          then EmptyString :: split_go sep (String.length sep - 1) r
          else match split_go sep O r with
               | h :: t => String c h :: t
               | [] => [String c EmptyString]
               end
      end
  end.

(** [None] stands for the [ValueError] raised on an empty separator. *)
Definition split (sep s : string) : option (list string) :=
  match sep with
  | EmptyString => None
  | _ => Some (split_go sep O s)
  end.

(** [s.count(sub)] for a non-empty [sub]: non-overlapping occurrences. *)
Fixpoint count_go (sub : string) (skip : nat) (s : string) : Z :=
  match s with
  | EmptyString => 0
  | String c r =>
      match skip with
      | S k => count_go sub k r
      | O =>
          if startswith sub s
          then 1 + count_go sub (String.length sub - 1) r
          else count_go sub O r
      end
  end.

(** For the empty [sub] Python answers [len(s) + 1]. *)
Definition count (sub s : string) : Z :=
  match sub with
  | EmptyString => Z.of_nat (String.length s) + 1
  | _ => count_go sub O s
  end.

(** [s.splitlines()]: a CR LF pair is one boundary, and a final boundary
    opens no further line. *)
Fixpoint splitlines (s : string) : list string :=
  match s with
  | EmptyString => []
  | String c r =>
      if is_linebreak c then
        match r with
        | String d r' =>
            if decide (c = CR /\ d = LF)
            then EmptyString :: splitlines r'
            else EmptyString :: splitlines r
        | EmptyString => [EmptyString]
        end
      else match splitlines r with
           | h :: t => String c h :: t
           | [] => [String c EmptyString]
           end
  end.

(** [sep.join(l)]. *)
Fixpoint join (sep : string) (l : list string) : string :=
  match l with
  | [] => EmptyString
  | [x] => x
  | x :: t => x +:+ sep +:+ join sep t
  end.

(** [str(n)] for an integer. *)
Definition str (n : Z) : string := NilZero.string_of_int (Z.to_int n).

Definition digit (c : ascii) : option Z :=
  let n := code c in
  if ((48 <=? n) && (n <=? 57))%N then Some (Z.of_N n - 48) else None.

(** The digits of an integer literal: single underscores are allowed
    between digits only. *)
Fixpoint parse_digits (s : string) (acc : Z) (after_digit : bool) : option Z :=
  match s with
  | EmptyString => if after_digit then Some acc else None
  | String c r =>
      match digit c with
      | Some d => parse_digits r (10 * acc + d) true
      | None =>
          if decide (c = "_"%char) then
            if after_digit then parse_digits r acc false else None
          else None
      end
  end.

(** [int(s)]: surrounding whitespace, an optional sign, decimal digits.
    [None] stands for [ValueError]. *)
Definition int (s : string) : option Z :=
  match strip s with
  | String "-" d => Z.opp <$> parse_digits d 0 false
  | String "+" d => parse_digits d 0 false
  | d => parse_digits d 0 false
  end.

End PyStr.

Import PyStr.

(** ** Prompts and version predicates (pure functions of the script) *)

(** [affirmative(response)]:
    [response.lower() == "y" or not response.strip()]. *)
Definition affirmative (response : string) : bool :=
  bool_decide (lower response = "y") || negb (truthy (strip response)).

(** [is_point_release(version)]: [version.count(".") > 1]. *)
Definition is_point_release (version : string) : bool :=
  1 <? count "." version.

(** ** Exceptions and results *)

Inductive exn :=
| KeyError
| ValueError
| TypeError
| IndexError
| OSError
| EOFError
| UnboundLocalError
| CalledProcessError
| LaunchpadError
| SystemExit (code : Z).

#[global] Instance exn_eq_dec : EqDecision exn.
Proof. solve_decision. Defined.

Inductive result (A : Type) :=
| Ok (a : A)
| Raise (e : exn).
Arguments Ok {A} a.
Arguments Raise {A} e.

#[global] Instance result_eq_dec {A} `{EqDecision A} : EqDecision (result A).
Proof. solve_decision. Defined.

(** ** The persistent stage cache ([CachedDict]) *)

(** The values the script stores, as JSON carries them: [None]/null,
    booleans, integers and strings. *)
Inductive value :=
| VNone
| VBool (b : bool)
| VInt (n : Z)
| VStr (s : string).

#[global] Instance value_eq_dec : EqDecision value.
Proof. solve_decision. Defined.

(** The JSON document of the cache: version |-> (field |-> value). *)
Abbreviation store := (gmap string (gmap string value)).

(** The file at [CACHE_PATH]: absent, or the document last dumped there.
    [json.load] of what [json.dump] wrote gives back the same document. *)
Abbreviation file := (option store).

Record CachedDict := { version : string; cache : store }.

(** [CachedDict.__init__(version)], reading the file [f]. *)
Definition __init__ (v : string) (f : file) : CachedDict :=
  let c := match f with Some c => c | None => ∅ end in
  {| version := v;
     cache := match c !! v with Some _ => c | None => <[v := ∅]> c end |}.

(** [_save_cache]: the file content after the dump. *)
Definition _save_cache (d : CachedDict) : file := Some (cache d).

(** [__setitem__]: [self.cache[self.version][key] = item], then save. *)
Definition __setitem__ (d : CachedDict) (key : string) (item : value)
  : result (CachedDict * file) :=
  match cache d !! version d with
  | None => Raise KeyError
  | Some fs =>
      let d' := {| version := version d;
                   cache := <[version d := <[key := item]> fs]> (cache d) |} in
      Ok (d', _save_cache d')
  end.

(** The body of the [try] in [__getitem__]. *)
Definition getitem_try (d : CachedDict) (key : string) : result value :=
  match cache d !! version d with
  | None => Raise KeyError
  | Some fs => match fs !! key with
               | None => Raise KeyError
               | Some v => Ok v
               end
  end.

(** [__getitem__]: a [KeyError] is swallowed and the method falls off its
    end, returning [None]. *)
Definition __getitem__ (d : CachedDict) (key : string) : result value :=
  match getitem_try d key with
  | Raise KeyError => Ok VNone
  | r => r
  end.

(** [purge]: [self.cache[self.version] = {}], then save. *)
Definition purge (d : CachedDict) : CachedDict * file :=
  let d' := {| version := version d; cache := <[version d := ∅]> (cache d) |} in
  (d', _save_cache d').

(** The in-memory store has an entry for the object's own version. *)
Definition has_entry (d : CachedDict) : Prop := is_Some (cache d !! version d).

(** Truth value and formatting of a stored value ([bool(x)], [f"{x}"]). *)
Definition truthy_value (x : value) : bool :=
  match x with
  | VNone => false
  | VBool b => b
  | VInt n => negb (n =? 0)
  | VStr s => truthy s
  end.

Definition fmt (x : value) : string :=
  match x with
  | VNone => "None"
  | VBool true => "True"
  | VBool false => "False"
  | VInt n => str n
  | VStr s => s
  end.

(** [int(x)] on a stored value. *)
Definition int_value (x : value) : result Z :=
  match x with
  | VNone => Raise TypeError
  | VBool b => Ok (if b then 1 else 0)
  | VInt n => Ok n
  | VStr s => match int s with Some n => Ok n | None => Raise ValueError end
  end.

(** ** The process and its surroundings *)

Inductive event :=
| EPrint (text : string)                      (* print(text) *)
| EPrompt (prompt : string)                   (* input(prompt) *)
| ESh (cmd : string)                          (* sh(cmd) *)
| EWrite (path content : string)              (* a file rewritten *)
| ECreateBug (project title description : string)  (* Launchpad createBug *)
| EExternal (what : string).                  (* a post-merge stage *)

(** What a run can observe and change: the cache file, the lines the
    operator will type, and the events so far (most recent first). *)
Record world := {
  w_file : file;
  w_stdin : list string;
  w_trace : list event;
}.

Definition M (A : Type) : Type := world -> result A * world.

#[global] Instance M_ret : MRet M := fun A a w => (Ok a, w).
#[global] Instance M_bind : MBind M := fun A B f m w =>
  match m w with
  | (Ok a, w') => f a w'
  | (Raise e, w') => (Raise e, w')
  end.

Definition raise {A} (e : exn) : M A := fun w => (Raise e, w).

Definition lift {A} (r : result A) : M A := fun w => (r, w).

Definition emit (e : event) : M unit := fun w =>
  (Ok (), {| w_file := w_file w; w_stdin := w_stdin w;
             w_trace := e :: w_trace w |}).

(** [try: m except e: h]. *)
Definition catch {A} (m : M A) (e : exn) (h : M A) : M A := fun w =>
  match m w with
  | (Raise e', w') => if decide (e' = e) then h w' else (Raise e', w')
  | r => r
  end.

Definition print (text : string) : M unit := emit (EPrint text).

(** [input(prompt)]: the prompt is shown, then a line is read; the end of
    the input raises [EOFError]. *)
Definition input (prompt : string) : M string := fun w =>
  let tr := EPrompt prompt :: w_trace w in
  match w_stdin w with
  | [] => (Raise EOFError, {| w_file := w_file w; w_stdin := []; w_trace := tr |})
  | l :: rest => (Ok l, {| w_file := w_file w; w_stdin := rest; w_trace := tr |})
  end.

Definition sys_exit {A} (code : Z) : M A := raise (SystemExit code).

(** The collaborators outside the script.  Each answer may depend on
    everything that happened before it. *)
Record Env := {
  (* datetime.datetime.now().year *)
  now_year : Z;
  (* stdout of a shell command; None is a nonzero exit status *)
  shell : list event -> string -> option string;
  (* os.path.exists *)
  path_exists : list event -> string -> bool;
  (* open(path).read(); None is an OSError *)
  file_content : list event -> string -> option string;
  (* lp.bugs.createBug and the task updates: the id of the new bug;
     None is a Launchpad failure *)
  lp_create : list event -> string -> string -> string -> option Z;
  (* what a post-merge stage does, by name and arguments *)
  external : string -> list string -> M unit;
}.

#[global] Instance result_ret : MRet result := fun A a => Ok a.
#[global] Instance result_bind : MBind result := fun A B f r =>
  match r with
  | Ok a => f a
  | Raise e => Raise e
  end.

Definition of_option {A} (e : exn) (o : option A) : result A :=
  match o with
  | Some a => Ok a
  | None => Raise e
  end.

Definition nl : string := String LF "".
Definition dq : string := String "034"%char "".

(** ** The bug-description template and its two readers *)

Definition RELEASE_NOTES_MARK : string := "== Release Notes ==".
Definition CHANGELOG_MARK : string := "== Changelog ==".

(** The text between the two markers of [BUG_TEMPLATE]. *)
Definition notes_section (NEW_RELEASE RELEASE_TIME_SPAN NUM_CONTRIBUTORS
                          NUM_DOMAINS NUM_BUGS : string) : string :=
  nl +:+ nl +:+
  "Cloud-init release " +:+ NEW_RELEASE +:+ " is now available" +:+ nl +:+ nl +:+
  "The " +:+ NEW_RELEASE +:+ " release:" +:+ nl +:+
  " * spanned about " +:+ RELEASE_TIME_SPAN +:+ nl +:+
  " * had " +:+ NUM_CONTRIBUTORS +:+ " contributors from " +:+ NUM_DOMAINS +:+
  " domains" +:+ nl +:+
  " * fixed " +:+ NUM_BUGS +:+ " Launchpad issues" +:+ nl +:+ nl +:+
  "Highlights:" +:+ nl +:+
  "  <TODO_SUMMARIZED_HIGHLIGHTS>" +:+ nl +:+ nl.

(** [BUG_TEMPLATE.format(...)]. *)
Definition BUG_TEMPLATE (NEW_RELEASE RELEASE_TIME_SPAN NUM_CONTRIBUTORS
                         NUM_DOMAINS NUM_BUGS CHANGELOG : string) : string :=
  RELEASE_NOTES_MARK +:+
  notes_section NEW_RELEASE RELEASE_TIME_SPAN NUM_CONTRIBUTORS NUM_DOMAINS NUM_BUGS +:+
  CHANGELOG_MARK +:+ nl +:+ CHANGELOG +:+ nl.

(** The re-extraction in [upload_to_launchpad]:
    [release_notes, changelog =
       bug_description.split("== Release Notes ==")[1].split("== Changelog ==")],
    then [release_notes.strip()] and
    ["\n".join(changelog.splitlines()[1:]).rstrip()]. *)
Definition extract_sections (bug_description : string) : result (string * string) :=
  parts ← of_option ValueError (split RELEASE_NOTES_MARK bug_description);
  seg ← of_option IndexError (parts !! 1%nat);
  halves ← of_option ValueError (split CHANGELOG_MARK seg);
  match halves with
  | [release_notes; changelog] =>
      Ok (strip release_notes, rstrip (join nl (tail (splitlines changelog))))
  | _ => Raise ValueError
  end.

(** ** The script's functions *)

Inductive stage :=
| All
| CreateReleaseBug
| PrepareGitBranch
| BuildAndUpload
| TagRelease
| CloseAllBugs
| UploadCopr
| Email
| PurgeCache.

#[global] Instance stage_eq_dec : EqDecision stage.
Proof. solve_decision. Defined.

Definition PROJECT : string := "cloud-init".
Definition SERVER : string := "production".

Section Script.

Variable env : Env.

Definition set_trace (w : world) (tr : list event) : world :=
  {| w_file := w_file w; w_stdin := w_stdin w; w_trace := tr |}.

Definition set_file (w : world) (f : file) : world :=
  {| w_file := f; w_stdin := w_stdin w; w_trace := w_trace w |}.

(** [sh(text)]: [subprocess.check_output(...).rstrip()]. *)
Definition sh (text : string) : M string := fun w =>
  let w' := set_trace w (ESh text :: w_trace w) in
  match shell env (w_trace w) text with
  | Some out => (Ok (rstrip out), w')
  | None => (Raise CalledProcessError, w')
  end.

Definition os_path_exists (path : string) : M bool := fun w =>
  (Ok (path_exists env (w_trace w) path), w).

Definition read_file (path : string) : M string := fun w =>
  (of_option OSError (file_content env (w_trace w) path), w).

Definition write_file (path content : string) : M unit :=
  emit (EWrite path content).

(** The cache object in the process. *)
Definition cache_init (v : string) : M CachedDict := fun w =>
  (Ok (__init__ v (w_file w)), w).

Definition cache_get (d : CachedDict) (key : string) : M value :=
  lift (__getitem__ d key).

Definition cache_set (d : CachedDict) (key : string) (item : value)
  : M CachedDict := fun w =>
  match __setitem__ d key item with
  | Ok (d', f') => (Ok d', set_file w f')
  | Raise e => (Raise e, w)
  end.

Definition cache_purge (d : CachedDict) : M CachedDict := fun w =>
  let '(d', f') := purge d in (Ok d', set_file w f').

(** [int(str(datetime.datetime.now().year)[2:])]. *)
Definition current_year : result Z :=
  of_option ValueError (int (drop 2 (str (now_year env)))).

(** [get_old_version(cache)]. *)
Definition get_old_version (cache : CachedDict) : M (string * CachedDict) :=
  likely_old_version ← sh "git describe --tags $(git log --grep='Release' -1 --pretty=format:'%h')";
  response ← input ("Old version (" +:+ likely_old_version +:+ "): ");
  let old_version :=
    if truthy (strip response) then strip response else likely_old_version in
  cache ← cache_set cache "old_version" (VStr old_version);
  mret (old_version, cache).

(** The default computed by [get_release_version] before the prompt. *)
Definition likely_release_version (old_version : string) : result string :=
  old_version_parts ← of_option ValueError (split "." old_version);
  p0 ← of_option IndexError (old_version_parts !! 0%nat);
  old_year ← of_option ValueError (int p0);
  current_year ← current_year;
  if current_year <=? old_year then
    pl ← of_option IndexError (last old_version_parts);
    n ← of_option ValueError (int pl);
    Ok (join "." (<[(length old_version_parts - 1)%nat := str (n + 1)]>
                    old_version_parts))
  else Ok (str current_year +:+ ".1").

Definition get_release_version (old_version : string) : M string :=
  likely ← lift (likely_release_version old_version);
  response ← input ("Release version (" +:+ likely +:+ "): ");
  mret (if truthy (strip response) then strip response else likely).

(** The default computed by [get_next_version] before the prompt. *)
Definition likely_next_version (current_version : string) : result string :=
  current_version_parts ← of_option ValueError (split "." current_version);
  p0 ← of_option IndexError (current_version_parts !! 0%nat);
  year ← of_option ValueError (int p0);
  p1 ← of_option IndexError (current_version_parts !! 1%nat);
  minor ← of_option ValueError (int p1);
  if 3 <? minor then
    current_year ← current_year;
    Ok (str (current_year + 1) +:+ ".1")
  else Ok (str year +:+ "." +:+ str (minor + 1)).

Definition get_next_version (current_version : string) : M string :=
  likely ← lift (likely_next_version current_version);
  response ← input ("Next version (" +:+ likely +:+ "): ");
  mret (if truthy (strip response) then strip response else likely).

(** [check_changelog()]. *)
Definition check_changelog : M unit :=
  present ← os_path_exists "ChangeLog";
  if negb present then
    print "Please run this script from the root directory of the cloud-init source tree";;
    sys_exit 1
  else mret ().

(** [checkout_main_and_pull()]. *)
Definition checkout_main_and_pull : M unit :=
  branch ← sh "git branch --show-current";
  (if negb (bool_decide (branch = "main")) then
     response ← input "Change current branch to main (Y/n)? ";
     (if negb (affirmative response) then
        print "Change branch to main and pull upstream commits before running this script";;
        sys_exit 1
      else mret ());;
     sh "git fetch";;
     sh "git checkout main";;
     mret ()
   else mret ());;
  head ← sh "git rev-parse HEAD";
  upstream ← sh "git rev-parse @{u}";
  if negb (bool_decide (head = upstream)) then
    response ← input "Pull latest upstream (Y/n)? ";
    (if negb (affirmative response) then
       print "Pull upstream commits before running this script";;
       sys_exit 1
     else mret ());;
    sh "git pull";;
    mret ()
  else mret ().

(** [create_bug] of [lp_create_bug.py], as [create_release_bug] calls it:
    no tag, no importance, [print_contents=False], no dry run. *)
Definition lp_bugs_createBug (project title description : string) : M Z :=
  fun w =>
    let w' := set_trace w (ECreateBug project title description :: w_trace w) in
    (of_option LaunchpadError
       (lp_create env (w_trace w) project title description), w').

Definition create_bug (project title description : string) : M Z :=
  description ← (if truthy description && startswith "@" description
                 then read_file (drop 1 description)
                 else mret description);
  lp_bugs_createBug project title description.

(** [create_release_bug(old_version, release_version)]. *)
Definition create_release_bug (old_version : value) (release_version : string)
  : M (value * string) :=
  let range := "git log " +:+ fmt old_version +:+ "..HEAD" in
  span ← sh (range +:+ " --pretty='%ar' | tail -n 1");
  let release_time_span := drop_last 4 span in
  num_contributors ← sh (range +:+ " --pretty='%aN' | sort -u | wc -l");
  num_domains ← sh (range +:+ " --pretty='%aE' | sort -u | wc -l");
  num_bugs ← sh (range +:+ " | log2dch | grep 'LP: #' | wc -l");
  changelog ← sh (range +:+ " | log2dch |  sed 's/^   //g'");
  print "";;
  print "";;
  print ("Summary: Release " +:+ release_version);;
  print "";;
  let bug_description :=
    BUG_TEMPLATE release_version release_time_span num_contributors
                 num_domains num_bugs changelog in
  print bug_description;;
  print "";;
  response ← input "Create a new bug in Launchpad with these contents (Y/n)? ";
  if affirmative response then
    bug_id ← create_bug PROJECT ("Release " +:+ release_version) bug_description;
    print ("Created bug at https://bugs.launchpad.net/cloud-init/+bug/" +:+ str bug_id);;
    mret (VInt bug_id, changelog)
  else
    print "Create upstream release bug manually by visiting https://bugs.launchpad.net/cloud-init/+filebug";;
    input "Press Enter to continue";;
    mret (VStr "", changelog).

(** [while not bug_id: bug_id = input(...).strip()]; [lines] is the input
    still to come, each round reads one line of it. *)
Fixpoint ask_bug_id (lines : list string) (bug_id : value) : M value :=
  if truthy_value bug_id then mret bug_id
  else
    response ← input "Enter bug ID that was created for this upstream release: ";
    match lines with
    | [] => mret (VStr (strip response))
    | _ :: rest => ask_bug_id rest (VStr (strip response))
    end.

(** [prepare_git_branch(old_version, release_version, bug_id, changelog)]. *)
Definition prepare_git_branch (old_version : value) (release_version : string)
    (bug_id : Z) (changelog : value) : M unit :=
  check_changelog;;
  checkout_main_and_pull;;
  response ← input "Create new release branch (Y/n)? ";
  if affirmative response then
    catch (sh ("git checkout -b upstream/" +:+ release_version);; mret ())
          CalledProcessError
          (print ("Could not checkout upstream/" +:+ release_version +:+
                  ". Does it already exist?"));;
    content ← read_file "ChangeLog";
    write_file "ChangeLog"
      (release_version +:+ nl +:+ fmt changelog +:+ nl +:+ nl +:+ content);;
    sh ("sed -i " +:+ dq +:+ "s/" +:+ fmt old_version +:+ "/" +:+
        release_version +:+ "/" +:+ dq +:+ " cloudinit/version.py");;
    bug_id ← (fun w => ask_bug_id (w_stdin w) (VInt bug_id) w);
    let commit_msg :=
      "Release " +:+ release_version +:+ nl +:+ nl +:+
      "Bump the version in cloudinit/version.py to " +:+ release_version +:+
      " and update ChangeLog." +:+ nl +:+ nl +:+
      "LP: #" +:+ fmt bug_id in
    sh ("git commit -a -m '" +:+ commit_msg +:+ "'");;
    mret ()
  else mret ().

Definition stage_in (st : stage) (l : list stage) : bool :=
  bool_decide (st ∈ l).

(** [old_version = cache["old_version"] or get_old_version(cache)]
    (line 545). *)
Definition resolve_old_version (cache : CachedDict) : M (value * CachedDict) :=
  cached ← cache_get cache "old_version";
  if truthy_value cached then mret (cached, cache)
  else '(v, cache) ← get_old_version cache; mret (VStr v, cache).

(** Lines 546-549.  The first component is the local [bug_id] of [main]:
    bound only if this stage ran. *)
Definition bug_stage (st : stage) (release_version : string)
    (old_version : value) (cache : CachedDict)
  : M (option value * CachedDict) :=
  if stage_in st [All; CreateReleaseBug] then
    '(bug_id, changelog) ← create_release_bug old_version release_version;
    cache ← cache_set cache "bug_id" bug_id;
    cache ← cache_set cache "changelog" (VStr changelog);
    mret (Some bug_id, cache)
  else mret (None, cache).

(** Lines 550-553. *)
Definition branch_stage (st : stage) (release_version : string)
    (old_version : value) (cache : CachedDict) : M unit :=
  if stage_in st [All; PrepareGitBranch] then
    cached_id ← cache_get cache "bug_id";
    id ← lift (int_value cached_id);
    changelog ← cache_get cache "changelog";
    prepare_git_branch old_version release_version id changelog
  else mret ().

(** Lines 554-563: the hand-over to the reviewer; the flag is set and the
    process exits. *)
Definition handoff (st : stage) (cache : CachedDict) (bug_id : option value)
  : M unit :=
  if stage_in st [All; CreateReleaseBug; PrepareGitBranch] then
    print "Now push your branch and nag a teammate to review it";;
    bug_id ← lift (of_option UnboundLocalError bug_id);
    print ("In the meantime, go fill out the TODO section of the bug you created at https://bugs.launchpad.net/cloud-init/+bug/" +:+ fmt bug_id);;
    print "When git branch has been merged, re-run this script.";;
    cache_set cache "premerge-complete" (VBool true);;
    sys_exit 0
  else mret ().

(** The block of [main] guarded by the pre-merge stages and the
    [premerge-complete] flag (lines 545-563). *)
Definition premerge (st : stage) (release_version : string)
    (cache : CachedDict) : M unit :=
  '(old_version, cache) ← resolve_old_version cache;
  '(bug_id, cache) ← bug_stage st release_version old_version cache;
  branch_stage st release_version old_version cache;;
  handoff st cache bug_id.

(** Lines 564-572: the merge confirmation of the composite stage. *)
Definition confirm_merged : M unit :=
  print "Do NOT proceed until the git branch for this upstream release has been merged!";;
  response ← input "Has git branch been merged (y/N)? ";
  if negb (bool_decide (lower response = "y")) then
    print "Re-run script once branch has been merged";;
    sys_exit 1
  else mret ().

(** Lines 573-600.  The post-merge stages talk to git, Launchpad, GitHub
    and COPR only and are left to the environment. *)
Definition stages (st : stage) (release_version : string)
    (cache : CachedDict) : M unit :=
  checkout_main_and_pull;;
  external env "launchpad_login" [];;
  (if stage_in st [All; TagRelease] then
     external env "tag_release" [release_version]
   else mret ());;
  (if stage_in st [All; BuildAndUpload] then
     cached_id ← cache_get cache "bug_id";
     id ← lift (int_value cached_id);
     external env "build_and_upload" [release_version; str id]
   else mret ());;
  (if stage_in st [All; CloseAllBugs] then
     old_version ← cache_get cache "old_version";
     external env "close_all_bugs" [fmt old_version; release_version]
   else mret ());;
  (if stage_in st [All; UploadCopr] then
     external env "upload_copr" [release_version]
   else mret ());;
  if stage_in st [All; Email] then
    cached_id ← cache_get cache "bug_id";
    id ← lift (int_value cached_id);
    external env "email" [release_version; str id]
  else mret ().

(** The rest of [main], from line 564 on. *)
Definition postmerge (st : stage) (release_version : string)
    (cache : CachedDict) : M unit :=
  (if bool_decide (st = All) then confirm_merged else mret ());;
  stages st release_version cache.

(** [main()] with [args.stage = st] and [args.version = release_version]. *)
Definition main (st : stage) (release_version : string) : M unit :=
  cache ← cache_init release_version;
  (if bool_decide (st = PurgeCache) then
     cache_purge cache;;
     print ("Cache purged for version " +:+ release_version);;
     sys_exit 0
   else mret ());;
  (if stage_in st [All; CreateReleaseBug; PrepareGitBranch] then
     flag ← cache_get cache "premerge-complete";
     if negb (bool_decide (flag = VBool true))
     then premerge st release_version cache
     else mret ()
   else mret ());;
  postmerge st release_version cache.

End Script.

(** ** Vocabulary of the statements *)

(** Every character of the string is whitespace (the empty string included). *)
Fixpoint whitespace_only (s : string) : bool :=
  match s with
  | EmptyString => true
  | String c r => is_space c && whitespace_only r
  end.

(** Number of characters of [s] equal to [c]. *)
Fixpoint occurrences (c : ascii) (s : string) : nat :=
  match s with
  | EmptyString => O
  | String d r => if decide (c = d) then S (occurrences c r) else occurrences c r
  end.

(** A quiet environment for running the model on examples: every command
    succeeds and prints [out]. *)
Definition env0 (year : Z) : Env :=
  {| now_year := year;
     shell := fun _ _ => Some "out";
     path_exists := fun _ _ => true;
     file_content := fun _ _ => Some "";
     lp_create := fun _ _ _ _ => Some 2000000;
     external := fun what _ => emit (EExternal what) |}.

(** A numeral: a non-empty string of the digits 0-9, and its value. *)
Fixpoint all_digits (s : string) : bool :=
  match s with
  | EmptyString => true
  | String c r => bool_decide (is_Some (digit c)) && all_digits r
  end.

Definition numeral (s : string) : bool := truthy s && all_digits s.

Fixpoint numeral_value_from (acc : Z) (s : string) : Z :=
  match s with
  | EmptyString => acc
  | String c r => numeral_value_from (10 * acc + default 0 (digit c)) r
  end.

Definition numeral_value (s : string) : Z := numeral_value_from 0 s.

(** [sub in s]. *)
Fixpoint contains (sub s : string) : bool :=
  startswith sub s ||
  match s with
  | EmptyString => false
  | String _ r => contains sub r
  end.

(** Neither section marker occurs in the text. *)
Definition marker_free (s : string) : bool :=
  negb (contains RELEASE_NOTES_MARK s) && negb (contains CHANGELOG_MARK s).

(** The last character is whitespace. *)
Fixpoint ends_with_space (s : string) : bool :=
  match s with
  | EmptyString => false
  | String c EmptyString => is_space c
  | String _ r => ends_with_space r
  end.

(** The only line boundary in the text is the line feed. *)
Fixpoint only_lf_breaks (s : string) : bool :=
  match s with
  | EmptyString => true
  | String c r => (negb (is_linebreak c) || bool_decide (c = LF)) && only_lf_breaks r
  end.

(** No occurrence of [sep] in [a +:+ rest] starts inside [a]. *)
Fixpoint free_until (sep a rest : string) : bool :=
  match a with
  | EmptyString => true
  | String c a' => negb (startswith sep (a +:+ rest)) && free_until sep a' rest
  end.

(** No proper non-empty tail of [sep] starts [rest]. *)
Fixpoint tails_free (sep rest : string) : bool :=
  match sep with
  | EmptyString => true
  | String _ sep' =>
      (negb (truthy sep') || negb (startswith sep' rest)) && tails_free sep' rest
  end.

(** [a] put in front of the first field of a split. *)
Definition prepend (a : string) (l : list string) : list string :=
  match l with
  | h :: t => (a +:+ h) :: t
  | [] => [a]
  end.

(** The computation never ends in [sys.exit(0)]. *)
Definition no_exit0 {A} (m : M A) : Prop :=
  forall w r w', m w = (r, w') -> r <> Raise (SystemExit 0).

(** ** Further functions of the script *)

(** A loop that reads the input: [body] is handed the lines still to come. *)
Definition with_stdin {A} (body : list string -> M A) : M A :=
  fun w => body (w_stdin w) w.

(** [s.split()]: the words between runs of whitespace. *)
Fixpoint split_ws (s : string) : list string :=
  match s with
  | EmptyString => []
  | String c r =>
      if is_space c then split_ws r
      else match r with
           | EmptyString => [String c EmptyString]
           | String d _ =>
               if is_space d then String c EmptyString :: split_ws r
               else match split_ws r with
                    | h :: t => String c h :: t
                    | [] => [String c EmptyString]
                    end
           end
  end.

(** [s.replace(old, new)] for a non-empty [old]; [skip] as in [split_go]. *)
Fixpoint replace_go (old new : string) (skip : nat) (s : string) : string :=
  match s with
  | EmptyString => EmptyString
  | String c r =>
      match skip with
      | S k => replace_go old new k r
      | O =>
          if startswith old s
          then new +:+ replace_go old new (String.length old - 1) r
          else String c (replace_go old new O r)
      end
  end.

(** For the empty [old] Python puts [new] before every character and at
    the end. *)
Fixpoint interleave (new s : string) : string :=
  match s with
  | EmptyString => new
  | String c r => new +:+ String c (interleave new r)
  end.

Definition replace (old new s : string) : string :=
  match old with
  | EmptyString => interleave new s
  | _ => replace_go old new O s
  end.

(** [get_release_version_from_bug(lp, bug_id)]; [bug_summary] stands for
    [lp.bugs.getBugData(bug_id=...)[0]["bug_summary"]]. *)
Definition get_release_version_from_bug (bug_summary : Z -> option string)
    (bug_id : Z) : result string :=
  summary ← of_option LaunchpadError (bug_summary bug_id);
  parts ← of_option ValueError (split "Release " summary);
  version ← of_option IndexError (parts !! 1%nat);
  Ok (strip version).

(** The announcement of [main] (lines 590-594), from the description of the
    release bug. *)
Definition THANKS : string :=
  "Thank you for your contributions," +:+ nl +:+ "The cloud-init team" +:+
  nl +:+ nl +:+ "The full changelog is below".

Definition compose_email (bug_description : string) : string :=
  replace CHANGELOG_MARK THANKS
          (join nl (list.drop 2 (splitlines bug_description))).

Section Series.

(** The series objects of the Launchpad project and their [name]. *)
Variable series : Type.
Variable name : series -> string.

(** The default offered by [get_series]. *)
Definition default_series (lp_series : list series) (release_version : string)
  : result string :=
  let all_series_names := name <$> lp_series in
  if is_point_release release_version then
    parts ← of_option ValueError (split "." release_version);
    let possible_series := join "." (removelast parts) in
    Ok (if bool_decide (possible_series ∈ all_series_names)
        then possible_series else "trunk")
  else Ok "trunk".

(** The [while not series] loop of [get_series]; [lines] is the input still
    to come. *)
Fixpoint ask_series (lines : list string) (lp_series : list series)
    (default : string) : M series :=
  answer ← input ("Specify series to upload to (" +:+ default +:+ "): ");
  let series_name := if truthy (strip answer) then answer else default in
  let again :=
    match lines with
    | [] => raise EOFError
    | _ :: rest => ask_series rest lp_series default
    end in
  if bool_decide (series_name ∈ name <$> lp_series) then
    match List.find (fun s => bool_decide (name s = series_name)) lp_series with
    | Some s => mret s
    | None => again
    end
  else
    print ("Invalid series. Your options are " +:+
           join ", " (name <$> lp_series));;
    again.

(** [get_series(lp_project, release_version)]. *)
Definition get_series (lp_series : list series) (release_version : string)
  : M series :=
  default ← lift (default_series lp_series release_version);
  with_stdin (fun lines => ask_series lines lp_series default).

End Series.

Section MoreScript.

Variable env : Env.

(** [tag_release(release_version)]. *)
Definition tag_cmd (release_version : string) : string :=
  "git tag --annotate --sign -m 'Release " +:+ release_version +:+ "' " +:+
  release_version.

Definition push_cmd (upstream release_version : string) : string :=
  "git push " +:+ upstream +:+ " " +:+ release_version.

Definition tag_release (release_version : string) : M unit :=
  response ← input ("Tag " +:+ release_version +:+
                    " release and push to github (Y/n)? ");
  if affirmative response then
    remotes ← sh env ("git remote -v | grep " +:+ dq +:+
                      "canonical/cloud-init.*push" +:+ dq);
    upstream ← lift (of_option IndexError (split_ws remotes !! 0%nat));
    head ← sh env "git show HEAD --pretty=oneline --no-patch";
    wrong ← (if negb (contains ("Release " +:+ release_version) head)
             then mret true
             else branch ← sh env "git rev-parse --abbrev-ref HEAD";
                  mret (negb (bool_decide (branch = "main"))));
    if wrong : bool then
      print ("HEAD must be the release commit on main before tagging. " +:+
             "Re-run script when fixed or run the following manually:" +:+
             nl +:+ tag_cmd release_version +:+ nl +:+
             push_cmd upstream release_version)
    else
      print ("Running: " +:+ tag_cmd release_version);;
      sh env (tag_cmd release_version);;
      print ("Running: " +:+ push_cmd upstream release_version);;
      sh env (push_cmd upstream release_version);;
      mret ()
  else mret ().

(** [close_all_bugs(old_version, release_version)]. *)
Definition released_cmd (release_version bugs : string) : string :=
  "lp-bugs-released --server=" +:+ SERVER +:+ " " +:+ PROJECT +:+ " " +:+
  release_version +:+ " " +:+ bugs.

Definition close_all_bugs (old_version : value) (release_version : string)
  : M unit :=
  let range := fmt old_version +:+ ".." +:+ release_version in
  response ← input ("Close all bugs from " +:+ fmt old_version +:+ " to " +:+
                    release_version +:+ " (Y/n)? ");
  if affirmative response then
    tagged ← catch (sh env ("git log " +:+ range +:+ " 2>&1 >/dev/null");;
                    mret true)
                   CalledProcessError
                   (print ("Error obtaining commits between " +:+
                           fmt old_version +:+ " and " +:+ release_version +:+
                           ". Did you forget to tag the release?");;
                    mret false);
    if tagged : bool then
      bugs ← sh env ("git log " +:+ range +:+ " | grep " +:+ dq +:+
                     "^[ ]*LP:" +:+ dq +:+
                     " | sort -u | awk -F 'LP: #' '{printf $2 " +:+ dq +:+
                     " " +:+ dq +:+ "}'");
      sh env (released_cmd release_version bugs);;
      print ("Closed bugs: " +:+ bugs)
    else mret ()
  else mret ().

(** [subprocess.call(cmd.split())]: whether the exit status is 0. *)
Definition subprocess_call (cmd : string) : M bool := fun w =>
  (Ok (bool_decide (is_Some (shell env (w_trace w) cmd))),
   set_trace w (ESh cmd :: w_trace w)).

(** The [while result != 0] loop of [build_tarball_and_sign]. *)
Fixpoint sign_retry (lines : list string) (gpg_call : string) (signed : bool)
  : M unit :=
  if signed then mret ()
  else
    response ← input ("'" +:+ gpg_call +:+ "' failed. Try again (Y/n)? ");
    if affirmative response then
      signed ← subprocess_call gpg_call;
      match lines with
      | [] => raise EOFError
      | _ :: rest => sign_retry rest gpg_call signed
      end
    else sys_exit 1.

(** [build_tarball_and_sign()]. *)
Definition build_tarball_and_sign : M string :=
  print "Creating tarball...";;
  tarball_path ← sh env "./tools/make-tarball";
  print "Calling GPG to create tarball signature (this might involve a password prompt)...";;
  let gpg_call := "gpg --armor --sign --detach-sig " +:+ tarball_path in
  signed ← subprocess_call gpg_call;
  with_stdin (fun lines => sign_retry lines gpg_call signed);;
  mret tarball_path.

End MoreScript.

(** ** Further vocabulary of the statements *)

(** An environment whose shell answers by command only. *)
Definition env_sh (answer : string -> option string) : Env :=
  {| now_year := 2024;
     shell := fun _ cmd => answer cmd;
     path_exists := fun _ _ => true;
     file_content := fun _ _ => Some "";
     lp_create := fun _ _ _ _ => Some 2000000;
     external := fun what _ => emit (EExternal what) |}.

(** The computation leaves the cache file alone. *)
Definition keeps_file {A} (m : M A) : Prop :=
  forall w r w', m w = (r, w') -> w_file w' = w_file w.

(** No character of the text is a line boundary. *)
Fixpoint one_line (s : string) : bool :=
  match s with
  | EmptyString => true
  | String c r => negb (is_linebreak c) && one_line r
  end.

(** The release notes of the template after the two line feeds that follow
    the first marker. *)
Definition notes_body (NEW_RELEASE RELEASE_TIME_SPAN NUM_CONTRIBUTORS
                       NUM_DOMAINS NUM_BUGS : string) : string :=
  "Cloud-init release " +:+ NEW_RELEASE +:+ " is now available" +:+ nl +:+ nl +:+
  "The " +:+ NEW_RELEASE +:+ " release:" +:+ nl +:+
  " * spanned about " +:+ RELEASE_TIME_SPAN +:+ nl +:+
  " * had " +:+ NUM_CONTRIBUTORS +:+ " contributors from " +:+ NUM_DOMAINS +:+
  " domains" +:+ nl +:+
  " * fixed " +:+ NUM_BUGS +:+ " Launchpad issues" +:+ nl +:+ nl +:+
  "Highlights:" +:+ nl +:+
  "  <TODO_SUMMARIZED_HIGHLIGHTS>" +:+ nl +:+ nl.

(** Every event the computation adds to the trace satisfies [P]. *)
Definition emits {A} (P : event -> Prop) (m : M A) : Prop :=
  forall w r w', m w = (r, w') ->
    exists new, w_trace w' = new ++ w_trace w /\ Forall P new.



(** * Theorems *)

Example split_ex1 : split "." "24.1.2" = Some ["24"; "1"; "2"].
Proof. reflexivity. Qed.
Example split_ex2 : split "ab" "xabab" = Some ["x"; ""; ""].
Proof. reflexivity. Qed.
Example splitlines_ex : splitlines (String "a" (String CR (String LF (String "b" (String LF ""))))) = ["a"; "b"].
Proof. reflexivity. Qed.
Example str_ex : str 0 = "0" /\ str 25 = "25" /\ str (-3) = "-3".
Proof. repeat split; reflexivity. Qed.
Example int_ex : int " 07 " = Some 7 /\ int "" = None /\ int "1_0" = Some 10 /\ int "-5" = Some (-5) /\ int "5_" = None.
Proof. repeat split; reflexivity. Qed.
Example rstrip_ex : rstrip " a b  " = " a b" /\ strip "  " = "".
Proof. repeat split; reflexivity. Qed.


Section StripFacts.

Lemma rstrip_empty_iff s : rstrip s = "" <-> whitespace_only s = true.
Proof.
  induction s as [|c r IH]; simpl; [tauto|].
  destruct (rstrip r) eqn:E.
  - destruct (is_space c); simpl.
    + rewrite <- IH. tauto.
    + split; discriminate.
  - split; [discriminate|].
    intros H. apply andb_true_iff in H as [_ H]. apply IH in H. discriminate.
Qed.

Lemma whitespace_only_lstrip s : whitespace_only (lstrip s) = whitespace_only s.
Proof.
  induction s as [|c r IH]; simpl; [done|].
  destruct (is_space c) eqn:E; simpl; [done|]. by rewrite E.
Qed.

Lemma strip_empty_iff s : strip s = "" <-> whitespace_only s = true.
Proof. unfold strip. by rewrite rstrip_empty_iff, whitespace_only_lstrip. Qed.

Lemma lower_char_y c : lower_char c = "y"%char -> c = "y"%char \/ c = "Y"%char.
Proof.
  destruct c as [[] [] [] [] [] [] [] []]; vm_compute; intros H;
    first [discriminate H | by left | by right].
Qed.

Lemma lower_y s : lower s = "y" <-> s = "y" \/ s = "Y".
Proof.
  split.
  - destruct s as [|c [|d r]]; simpl; try discriminate.
    intros H. injection H as H. apply lower_char_y in H as [-> | ->]; auto.
  - by intros [-> | ->].
Qed.

End StripFacts.

(** C10. [affirmative] accepts exactly the whitespace-only responses and the
  two one-character responses "y" and "Y" (the strings whose lower-casing
  is "y"); "yes", "Y " and " y" are declined. *)
Theorem affirmative_spec :
  (forall response,
    affirmative response = true <->
    whitespace_only response = true \/ lower response = "y") /\
  (forall response, lower response = "y" <-> response = "y" \/ response = "Y") /\
affirmative "yes" = false /\ affirmative "Y " = false /\ affirmative " y" = false.
Proof.
split; [|split; [exact lower_y | by vm_compute]].
intros r. unfold affirmative.
rewrite orb_true_iff, bool_decide_eq_true, negb_true_iff.
rewrite <- strip_empty_iff.
destruct (strip r); simpl; split; intros [H|H]; auto; discriminate.
Qed.

Lemma count_dot s : count "." s = Z.of_nat (occurrences "."%char s).
Proof.
unfold count. induction s as [|c r IH]; [done|].
cbn [count_go startswith occurrences String.length Nat.sub].
destruct (decide ("."%char = c)); rewrite IH; [destruct r|]; lia.
Qed.

(** C7. A version is a point release iff it holds more than one '.'. *)
Theorem is_point_release_spec version :
  (is_point_release version = true <-> (1 < occurrences "."%char version)%nat) /\
is_point_release "24.1" = false /\ is_point_release "24.1.2" = true.
Proof.
split; [|by vm_compute].
unfold is_point_release. rewrite count_dot, Z.ltb_lt. lia.
Qed.

(** ** The stage cache *)

Section Cache.

Implicit Types (d : CachedDict) (f : file) (key v : string) (x : value).

Lemma init_version v f : version (__init__ v f) = v.
Proof. done. Qed.

Lemma init_has_entry v f : has_entry (__init__ v f).
Proof.
  unfold has_entry, __init__; simpl.
  set (c := match f with Some c => c | None => ∅ end).
  destruct (c !! v) eqn:E; [by rewrite E | by rewrite lookup_insert_eq].
Qed.

Lemma init_saved d : has_entry d -> __init__ (version d) (_save_cache d) = d.
Proof.
  intros [fs E]. destruct d as [v c]; simpl in *.
  unfold __init__; simpl. by rewrite E.
Qed.

Lemma setitem_ok d key x :
  has_entry d ->
  exists fs, cache d !! version d = Some fs /\
    __setitem__ d key x =
      Ok ({| version := version d;
             cache := <[version d := <[key := x]> fs]> (cache d) |},
          Some (<[version d := <[key := x]> fs]> (cache d))).
Proof. intros [fs E]. exists fs. unfold __setitem__. by rewrite E. Qed.

Lemma setitem_has_entry d key x d' f' :
  __setitem__ d key x = Ok (d', f') -> has_entry d' /\ version d' = version d /\ f' = _save_cache d'.
Proof.
  unfold __setitem__. destruct (cache d !! version d) eqn:E; [|done].
  intros [= <- <-]. unfold has_entry; simpl. by rewrite lookup_insert_eq.
Qed.

Lemma purge_has_entry d : has_entry (purge d).1.
Proof. unfold has_entry; simpl. by rewrite lookup_insert_eq. Qed.

Lemma setitem_get_reload d key x d' f' :
  __setitem__ d key x = Ok (d', f') ->
  __getitem__ d' key = Ok x /\ __getitem__ (__init__ (version d) f') key = Ok x.
Proof.
  unfold __setitem__. destruct (cache d !! version d) as [fs|] eqn:E; [|done].
  intros [= <- <-]. unfold __getitem__, getitem_try, __init__; simpl.
  by rewrite !lookup_insert_eq; simpl; rewrite ?lookup_insert_eq.
Qed.

Lemma getitem_total d key : exists x, __getitem__ d key = Ok x.
Proof.
  unfold __getitem__, getitem_try.
  destruct (cache d !! version d) as [fs|]; [|by eexists].
  destruct (fs !! key); by eexists.
Qed.

End Cache.

(** C3. After [set(V, f, x)], [get(V, f)] is [x], on the live object and on
    an object rebuilt from the file the set has just written. *)
Theorem set_get_restart (d : CachedDict) (key : string) (x : value) :
  has_entry d ->
  exists d' f',
    __setitem__ d key x = Ok (d', f') /\
    f' = _save_cache d' /\
    __getitem__ d' key = Ok x /\
    __getitem__ (__init__ (version d) f') key = Ok x.
Proof.
  intros H. destruct (setitem_ok d key x H) as (fs & E & ->).
  do 2 eexists. split; [done|]. split; [done|].
  unfold __getitem__, getitem_try, __init__; simpl.
  by rewrite !lookup_insert_eq; simpl; rewrite ?lookup_insert_eq.
Qed.

Lemma set_get_restart_witness :
  let d := __init__ "24.1" None in
  has_entry d /\
  exists d' f',
    __setitem__ d "bug_id" (VInt 7) = Ok (d', f') /\
    f' = _save_cache d' /\
    __getitem__ d' "bug_id" = Ok (VInt 7) /\
    __getitem__ (__init__ (version d) f') "bug_id" = Ok (VInt 7).
Proof.
  split; [apply init_has_entry|].
  apply (set_get_restart (__init__ "24.1" None) "bug_id" (VInt 7)).
  apply init_has_entry.
Defined.

(** C4. After [purge(V)] every [get(V, field)] is [None], on the live object
    and after a reload; the entry of V is the empty mapping and is what the
    file holds. *)
Theorem purge_get_absent (d : CachedDict) (key : string) :
  let '(d', f') := purge d in
  cache d' !! version d = Some ∅ /\
  f' = Some (cache d') /\
  __getitem__ d' key = Ok VNone /\
  __getitem__ (__init__ (version d) f') key = Ok VNone.
Proof.
  simpl. unfold __getitem__, getitem_try, __init__; simpl.
  by rewrite !lookup_insert_eq; simpl; rewrite ?lookup_insert_eq, ?lookup_empty.
Qed.

(** C9. The entry of the object's own version is established by
    construction (with or without a file), kept by set and purge (purge
    leaves the empty mapping, not a missing key); under it set does not
    raise, and get never raises: a missing field reads as [None]. *)
Theorem cache_entry_invariant :
  (forall v f, has_entry (__init__ v f)) /\
  (forall v, cache (__init__ v None) = {[ v := ∅ ]}) /\
  (forall d key x, has_entry d ->
     exists d' f', __setitem__ d key x = Ok (d', f') /\ has_entry d') /\
  (forall d, has_entry (purge d).1 /\ cache (purge d).1 !! version d = Some ∅) /\
  (forall d key, exists x, __getitem__ d key = Ok x) /\
  (forall d key fs, cache d !! version d = Some fs -> fs !! key = None ->
     __getitem__ d key = Ok VNone).
Proof.
  split_and!.
  - apply init_has_entry.
  - done.
  - intros d key x H. destruct (setitem_ok d key x H) as (fs & E & ->).
    do 2 eexists. split; [done|]. unfold has_entry; simpl.
    by rewrite lookup_insert_eq.
  - intros d. split; [apply purge_has_entry|].
    simpl. by rewrite lookup_insert_eq.
  - apply getitem_total.
  - intros d key fs E1 E2. unfold __getitem__, getitem_try. by rewrite E1, E2.
Qed.

(** ** Version heuristics *)

Example release_ex1 : likely_release_version (env0 2024) "23.4" = Ok "24.1".
Proof. reflexivity. Qed.
Example release_ex2 : likely_release_version (env0 2024) "24.2" = Ok "24.3".
Proof. reflexivity. Qed.
Example next_ex1 : likely_next_version (env0 2024) "24.1" = Ok "24.2".
Proof. reflexivity. Qed.
Example next_ex2 : likely_next_version (env0 2024) "24.4" = Ok "25.1".
Proof. reflexivity. Qed.
Example next_ex3 : likely_next_version (env0 2025) "24.4" = Ok "26.1".
Proof. reflexivity. Qed.

Section Numerals.

Lemma digit_facts c d :
  digit c = Some d ->
  is_space c = false /\ c <> "."%char /\ c <> "-"%char /\ c <> "+"%char /\ c <> "_"%char.
Proof.
  destruct c as [[] [] [] [] [] [] [] []]; vm_compute; intros H;
    try discriminate H; repeat split; discriminate.
Qed.

Lemma rstrip_all_digits s : all_digits s = true -> rstrip s = s.
Proof.
  induction s as [|c r IH]; simpl; [done|].
  intros [Hc Hr]%andb_true_iff. rewrite (IH Hr).
  apply bool_decide_eq_true in Hc as [d Hd].
  destruct (digit_facts c d Hd) as [-> _]. by destruct r.
Qed.

Lemma strip_numeral s : numeral s = true -> strip s = s.
Proof.
  unfold numeral, strip. destruct s as [|c r]; [done|]. simpl truthy.
  rewrite andb_true_l. intros H. pose proof H as H'. simpl in H'.
  apply andb_true_iff in H' as [Hc _].
  apply bool_decide_eq_true in Hc as [d Hd].
  destruct (digit_facts c d Hd) as [Hs _]. simpl lstrip. rewrite Hs.
  by apply rstrip_all_digits.
Qed.

Lemma parse_all_digits s acc b :
  all_digits s = true -> (truthy s || b = true) ->
  parse_digits s acc b = Some (numeral_value_from acc s).
Proof.
  revert acc b. induction s as [|c r IH]; intros acc b; simpl.
  - intros _ ->. done.
  - intros [Hc Hr]%andb_true_iff _.
    apply bool_decide_eq_true in Hc as [d Hd]. rewrite Hd. simpl.
    apply IH; [done|]. by rewrite orb_true_r.
Qed.

Lemma int_numeral s : numeral s = true -> int s = Some (numeral_value s).
Proof.
  intros H. unfold int. rewrite (strip_numeral s H).
  unfold numeral in H. apply andb_true_iff in H as [Hne Hd].
  assert (parse_digits s 0 false = Some (numeral_value s)) as Hp.
  { apply parse_all_digits; [done|]. by rewrite Hne. }
  destruct s as [|c r]; [done|].
  simpl in Hd. apply andb_true_iff in Hd as [Hc _].
  apply bool_decide_eq_true in Hc as [d Hc].
  destruct (digit_facts c d Hc) as (_ & _ & Hm & Hp' & _).
  rewrite <- Hp. clear -Hm Hp'.
  destruct c as [[] [] [] [] [] [] [] []]; try reflexivity; congruence.
Qed.

Lemma all_digits_no_dot s : all_digits s = true -> occurrences "."%char s = O.
Proof.
  induction s as [|c r IH]; simpl; [done|].
  intros [Hc Hr]%andb_true_iff.
  apply bool_decide_eq_true in Hc as [d Hd].
  destruct (digit_facts c d Hd) as (_ & Hdot & _).
  destruct (decide ("."%char = c)); [congruence | auto].
Qed.

End Numerals.

Section SplitJoin.

Lemma split_go_not_nil sep k s : split_go sep k s <> [].
Proof.
  revert k. induction s as [|c r IH]; intros k; simpl; [done|].
  destruct k; [|apply IH].
  destruct (startswith sep (String c r)); [done|].
  by destruct (split_go sep 0 r).
Qed.

Lemma split_dot_cons c r :
  split_go "." 0 (String c r) =
    if decide ("."%char = c) then "" :: split_go "." 0 r
    else match split_go "." 0 r with
         | h :: t => String c h :: t
         | [] => [String c ""]
         end.
Proof. simpl. by destruct (decide ("."%char = c)). Qed.

Lemma split_dot_plain p :
  occurrences "."%char p = O -> split_go "." 0 p = [p].
Proof.
  induction p as [|c r IH]; [done|].
  rewrite split_dot_cons. simpl.
  destruct (decide ("."%char = c)); [done|].
  intros H. by rewrite (IH H).
Qed.

Lemma split_dot_app p rest :
  occurrences "."%char p = O ->
  split_go "." 0 (p +:+ "." +:+ rest) = p :: split_go "." 0 rest.
Proof.
  induction p as [|c r IH].
  - intros _. change ("" +:+ "." +:+ rest) with (String "." rest).
    by rewrite split_dot_cons.
  - change (String c r +:+ "." +:+ rest) with (String c (r +:+ "." +:+ rest)).
    rewrite split_dot_cons. simpl.
    destruct (decide ("."%char = c)); [done|].
    intros H. by rewrite (IH H).
Qed.

Lemma split_join_dot parts :
  parts <> [] ->
  Forall (fun p => occurrences "."%char p = O) parts ->
  split "." (join "." parts) = Some parts.
Proof.
  intros Hne H. unfold split. f_equal.
  induction H as [|p t Hp Ht IH]; [done|].
  destruct t as [|q t]; [by apply split_dot_plain|].
  change (join "." (p :: q :: t)) with (p +:+ "." +:+ join "." (q :: t)).
  rewrite split_dot_app by done. f_equal. by apply IH.
Qed.

Lemma insert_last_removelast {A} (l : list A) x :
  l <> [] -> <[(length l - 1)%nat := x]> l = removelast l ++ [x].
Proof.
  induction l as [|a [|b t] IH]; [done|done|].
  intros _. specialize (IH ltac:(done)).
  change (removelast (a :: b :: t)) with (a :: removelast (b :: t)).
  rewrite <- app_comm_cons, <- IH.
  replace (length (a :: b :: t) - 1)%nat with (S (length (b :: t) - 1))
    by (simpl; lia).
  done.
Qed.

End SplitJoin.

Section Year.

Lemma current_year_two_digits env :
  1000 <= now_year env <= 9999 ->
  current_year env = Ok (now_year env mod 100).
Proof.
  intros H. unfold current_year.
  assert (forallb
            (fun y => bool_decide (int (drop 2 (str y)) = Some (y mod 100)))
            (seqZ 1000 9000) = true) as T by (vm_compute; reflexivity).
  rewrite forallb_forall in T.
  specialize (T (now_year env)).
  rewrite bool_decide_eq_true in T. rewrite T; [done|].
  apply list_elem_of_In, elem_of_seqZ. lia.
Qed.

End Year.

Section Heuristics.

Variable env : Env.
Hypothesis four_digit_year : 1000 <= now_year env <= 9999.

Lemma numerals_no_dot parts :
  Forall (fun p => numeral p = true) parts ->
  Forall (fun p => occurrences "."%char p = O) parts.
Proof.
  intros H. eapply Forall_impl; [exact H|].
  intros p [_ Hp]%andb_true_iff. by apply all_digits_no_dot.
Qed.

Lemma likely_release_version_numerals parts p0 pl :
  parts !! 0%nat = Some p0 -> last parts = Some pl ->
  Forall (fun p => numeral p = true) parts ->
  likely_release_version env (join "." parts) =
    Ok (if now_year env mod 100 <=? numeral_value p0
        then join "." (removelast parts ++ [str (numeral_value pl + 1)])
        else str (now_year env mod 100) +:+ ".1").
Proof.
  intros H0 Hl Hn.
  assert (parts <> []) as Hne by (by destruct parts).
  unfold likely_release_version.
  rewrite (split_join_dot parts Hne (numerals_no_dot parts Hn)). simpl.
  rewrite H0. simpl.
  rewrite Forall_forall in Hn.
  rewrite (int_numeral p0) by (apply Hn; by eapply list_elem_of_lookup_2).
  simpl. rewrite (current_year_two_digits env four_digit_year). simpl.
  destruct (now_year env mod 100 <=? numeral_value p0); [|done].
  rewrite Hl. simpl.
  rewrite (int_numeral pl)
    by (apply Hn; rewrite last_lookup in Hl; by eapply list_elem_of_lookup_2).
  simpl. by rewrite insert_last_removelast.
Qed.

Lemma likely_next_version_numerals yy n :
  numeral yy = true -> numeral n = true ->
  likely_next_version env (yy +:+ "." +:+ n) =
    Ok (if 3 <? numeral_value n
        then str (now_year env mod 100 + 1) +:+ ".1"
        else str (numeral_value yy) +:+ "." +:+ str (numeral_value n + 1)).
Proof.
  intros Hy Hn. unfold likely_next_version.
  change (yy +:+ "." +:+ n) with (join "." [yy; n]).
  rewrite split_join_dot; [|done|].
  2:{ apply numerals_no_dot. by repeat constructor. }
  simpl. rewrite (int_numeral yy Hy). simpl. rewrite (int_numeral n Hn). simpl.
  destruct (3 <? numeral_value n); [|done].
  by rewrite (current_year_two_digits env four_digit_year).
Qed.

End Heuristics.

Lemma get_release_version_blank env old_version likely w line rest :
  likely_release_version env old_version = Ok likely ->
  w_stdin w = line :: rest -> whitespace_only line = true ->
  (get_release_version env old_version w).1 = Ok likely.
Proof.
  intros Hl Hw Hb. unfold get_release_version.
  unfold mbind, M_bind, lift. rewrite Hl. unfold input. rewrite Hw. simpl.
  apply strip_empty_iff in Hb. by rewrite Hb.
Qed.

(** C5. For a version of dot-separated numerals and the two-digit year Y of
    a four-digit calendar year: if the first numeral is at least Y the
    default release version is the old one with its last numeral
    incremented, otherwise it is "Y.1". *)
Theorem release_version_default env (parts : list string) (p0 pl : string) :
  1000 <= now_year env <= 9999 ->
  parts !! 0%nat = Some p0 -> last parts = Some pl ->
  Forall (fun p => numeral p = true) parts ->
  likely_release_version env (join "." parts) =
    Ok (if now_year env mod 100 <=? numeral_value p0
        then join "." (removelast parts ++ [str (numeral_value pl + 1)])
        else str (now_year env mod 100) +:+ ".1").
Proof. intros. by apply likely_release_version_numerals. Qed.

Lemma release_version_default_witness :
  likely_release_version (env0 2024) "23.4" = Ok "24.1" /\
  likely_release_version (env0 2024) "24.2" = Ok "24.3".
Proof.
  split.
  - apply (release_version_default (env0 2024) ["23"; "4"] "23" "4");
      [simpl; lia | reflexivity | reflexivity | repeat constructor].
  - apply (release_version_default (env0 2024) ["24"; "2"] "24" "2");
      [simpl; lia | reflexivity | reflexivity | repeat constructor].
Defined.

(** C6, as the code has it.  For a version "YY.N" of two numerals: if N
    exceeds 3 the default next version is "(Y+1).1" for the two-digit year Y
    of the calendar year of the run, whatever YY is; otherwise it is YY
    with N incremented. *)
Theorem next_version_default env (yy n : string) :
  1000 <= now_year env <= 9999 ->
  numeral yy = true -> numeral n = true ->
  likely_next_version env (yy +:+ "." +:+ n) =
    Ok (if 3 <? numeral_value n
        then str (now_year env mod 100 + 1) +:+ ".1"
        else str (numeral_value yy) +:+ "." +:+ str (numeral_value n + 1)).
Proof. intros. by apply likely_next_version_numerals. Qed.

Lemma next_version_default_witness :
  likely_next_version (env0 2024) "24.1" = Ok "24.2" /\
  likely_next_version (env0 2024) "24.4" = Ok "25.1".
Proof.
  split.
  - apply (next_version_default (env0 2024) "24" "1");
      [simpl; lia | reflexivity | reflexivity].
  - apply (next_version_default (env0 2024) "24" "4");
      [simpl; lia | reflexivity | reflexivity].
Defined.

(** C6 as stated fails: the roll-over does not take the year of the version.
    Cutting "24.4" during 2025 proposes "26.1", not "25.1". *)
Lemma next_version_version_year_false :
  ~ (forall env yy n,
        numeral yy = true -> numeral n = true -> 3 < numeral_value n ->
        likely_next_version env (yy +:+ "." +:+ n) =
          Ok (str (numeral_value yy + 1) +:+ ".1")).
Proof.
  intros H.
  specialize (H (env0 2025) "24" "4" eq_refl eq_refl eq_refl).
  vm_compute in H. discriminate H.
Qed.

(** ** The bug description and its re-extraction *)

Section Splitting.

Implicit Types (sep s a r rest : string).

Lemma append_cons c a r : String c a +:+ r = String c (a +:+ r).
Proof. done. Qed.

Lemma append_nil_r s : s +:+ "" = s.
Proof. induction s as [|c s IH]; [done | by rewrite append_cons, IH]. Qed.

Lemma append_assoc a s r : (a +:+ s) +:+ r = a +:+ (s +:+ r).
Proof. induction a as [|c a IH]; [done | by rewrite !append_cons, IH]. Qed.

Lemma startswith_self_app sep r : startswith sep (sep +:+ r) = true.
Proof.
  induction sep as [|c sep IH]; simpl; [done|].
  by destruct (decide (c = c)).
Qed.

Lemma drop_length_app sep r : drop (String.length sep) (sep +:+ r) = r.
Proof. induction sep as [|c sep IH]; simpl; [by destruct r | done]. Qed.

Lemma split_go_skip sep k s : split_go sep k s = split_go sep 0 (drop k s).
Proof.
  revert k. induction s as [|c s IH]; intros [|k]; try done.
  simpl drop. rewrite <- IH. done.
Qed.

(** A separator at the front opens an empty first field. *)
Lemma split_go_match sep r :
  sep <> "" -> split_go sep 0 (sep +:+ r) = "" :: split_go sep 0 r.
Proof.
  intros Hne. destruct sep as [|c sep]; [done|].
  change (String c sep +:+ r) with (String c (sep +:+ r)).
  cbn [split_go].
  change (String c (sep +:+ r)) with (String c sep +:+ r).
  rewrite startswith_self_app.
  rewrite split_go_skip. f_equal. f_equal.
  replace (String.length (String c sep) - 1)%nat with (String.length sep)
    by (simpl; lia).
  apply drop_length_app.
Qed.

(** Text in which no separator starts is carried into the first field. *)
Lemma split_go_free sep a rest :
  free_until sep a rest = true ->
  split_go sep 0 (a +:+ rest) = prepend a (split_go sep 0 rest).
Proof.
  induction a as [|c a IH]; simpl free_until.
  - intros _. change ("" +:+ rest) with rest.
    pose proof (split_go_not_nil sep 0 rest) as Hn.
    destruct (split_go sep 0 rest); [by destruct Hn | done].
  - intros [H1 H2]%andb_true_iff. apply negb_true_iff in H1.
    rewrite append_cons in *.
    cbn [split_go]. rewrite H1, (IH H2).
    pose proof (split_go_not_nil sep 0 rest) as Hn.
    destruct (split_go sep 0 rest); [by destruct Hn | done].
Qed.

Lemma free_until_app sep a s rest :
  free_until sep (a +:+ s) rest =
    free_until sep a (s +:+ rest) && free_until sep s rest.
Proof.
  induction a as [|c a IH]; [done|].
  change (String c a +:+ s) with (String c (a +:+ s)).
  cbn [free_until]. rewrite IH.
  change (String c (a +:+ s) +:+ rest) with (String c ((a +:+ s) +:+ rest)).
  change (String c a +:+ (s +:+ rest)) with (String c (a +:+ (s +:+ rest))).
  rewrite append_assoc. by rewrite andb_assoc.
Qed.

(** A separator cannot start where its first character does not occur. *)
Lemma free_until_first c sep a rest :
  occurrences c a = O -> free_until (String c sep) a rest = true.
Proof.
  induction a as [|d a IH]; [done|].
  cbn [occurrences free_until].
  destruct (decide (c = d)); [done|]. intros H.
  rewrite (IH H), andb_true_r.
  change (String d a +:+ rest) with (String d (a +:+ rest)).
  simpl. by destruct (decide (c = d)).
Qed.

Lemma startswith_app_inv sep a rest :
  startswith sep (a +:+ rest) = true ->
  startswith sep a = true \/
  ((String.length a < String.length sep)%nat /\
   startswith (drop (String.length a) sep) rest = true).
Proof.
  revert sep. induction a as [|c a IH]; intros sep.
  - destruct sep; [by left|]. intros H. right. split; [simpl; lia | done].
  - destruct sep as [|d sep]; [by left|].
    change (String c a +:+ rest) with (String c (a +:+ rest)).
    cbn [startswith]. destruct (decide (d = c)); [|done].
    intros H. destruct (IH sep H) as [?|[? ?]]; [by left|].
    right. split; [simpl; lia | done].
Qed.

Lemma tails_free_drop sep rest k :
  tails_free sep rest = true ->
  (0 < k < String.length sep)%nat ->
  startswith (drop k sep) rest = false.
Proof.
  revert k. induction sep as [|c sep IH]; intros k; [simpl; lia|].
  cbn [tails_free]. intros [H1 H2]%andb_true_iff Hk.
  destruct k as [|k]; [lia|]. cbn [drop].
  destruct k as [|k].
  - destruct sep as [|d sep]; [simpl in Hk; lia|].
    simpl in H1. by apply negb_true_iff in H1.
  - apply IH; [done|]. simpl in Hk. lia.
Qed.

Lemma contains_startswith sep s : startswith sep s = true -> contains sep s = true.
Proof. destruct s; simpl; by intros ->. Qed.

(** A separator cannot start inside a field that does not contain it, if it
    cannot run over into what follows the field. *)
Lemma free_until_field sep a rest :
  contains sep a = false -> tails_free sep rest = true ->
  free_until sep a rest = true.
Proof.
  intros Hc Ht. induction a as [|c a IH]; [done|].
  cbn [contains] in Hc. apply orb_false_iff in Hc as [Hs Hc].
  cbn [free_until]. rewrite (IH Hc), andb_true_r. apply negb_true_iff.
  destruct (startswith sep (String c a +:+ rest)) eqn:E; [|done].
  apply startswith_app_inv in E as [E|[Hl E]]; [congruence|].
  rewrite tails_free_drop in E; [done|done|]. simpl. simpl in Hl. lia.
Qed.

End Splitting.

Section Template.

Variables NR TS NC ND NB CL : string.
Hypothesis fields_free :
  Forall (fun f => marker_free f = true) [NR; TS; NC; ND; NB; CL].

Lemma field_free f :
  f ∈ [NR; TS; NC; ND; NB; CL] ->
  contains RELEASE_NOTES_MARK f = false /\ contains CHANGELOG_MARK f = false.
Proof.
  intros Hf. rewrite Forall_forall in fields_free.
  specialize (fields_free f Hf). unfold marker_free in fields_free.
  apply andb_true_iff in fields_free as [H1 H2].
  by rewrite !negb_true_iff in H1, H2.
Qed.

Ltac field_piece :=
  apply free_until_field;
  [ match goal with
    | |- contains _ ?f = false =>
        first [ exact (proj1 (field_free f ltac:(set_solver)))
              | exact (proj2 (field_free f ltac:(set_solver))) ]
    end
  | reflexivity ].

Ltac plain_piece := apply (free_until_first "="%char); reflexivity.

Ltac pieces :=
  repeat (rewrite free_until_app; apply andb_true_iff; split);
  first [ plain_piece | field_piece | reflexivity ].


Lemma notes_free_changelog rest :
  free_until CHANGELOG_MARK (notes_section NR TS NC ND NB) rest = true.
Proof. unfold notes_section, CHANGELOG_MARK. pieces. Qed.


Lemma split_go_whole sep s : free_until sep s "" = true -> split_go sep 0 s = [s].
Proof.
  intros H. rewrite <- (append_nil_r s) at 1.
  rewrite (split_go_free sep s "" H). simpl. by rewrite append_nil_r.
Qed.




End Template.

Section Lines.

Lemma splitlines_lf s : splitlines (String LF s) = "" :: splitlines s.
Proof. by destruct s. Qed.

Lemma splitlines_cons c r :
  splitlines (String c r) =
    if is_linebreak c then
      match r with
      | String d r' =>
          if decide (c = CR /\ d = LF)
          then "" :: splitlines r'
          else "" :: splitlines r
      | EmptyString => [""]
      end
    else match splitlines r with
         | h :: t => String c h :: t
         | [] => [String c ""]
         end.
Proof. done. Qed.

Lemma splitlines_not_nil c s : splitlines (String c s) <> [].
Proof.
  rewrite splitlines_cons. destruct (is_linebreak c).
  - destruct s; [done|]. by case_decide.
  - by destruct (splitlines s).
Qed.

Lemma join_cons_char c h t : join nl (String c h :: t) = String c (join nl (h :: t)).
Proof. by destruct t. Qed.

Lemma join_empty_head l : l <> [] -> join nl ("" :: l) = nl +:+ join nl l.
Proof. by destruct l. Qed.

Lemma join_splitlines body :
  only_lf_breaks body = true -> join nl (splitlines (body +:+ nl)) = body.
Proof.
  induction body as [|c r IH]; [done|].
  cbn [only_lf_breaks]. intros [Hc Hr]%andb_true_iff.
  specialize (IH Hr). rewrite append_cons.
  assert (exists d t, r +:+ nl = String d t) as (d & t & E)
    by (destruct r; simpl; eauto).
  destruct (is_linebreak c) eqn:Hb.
  - simpl in Hc. apply bool_decide_eq_true in Hc as ->.
    rewrite splitlines_lf, join_empty_head, IH; [done|].
    rewrite E. apply splitlines_not_nil.
  - rewrite splitlines_cons, Hb.
    pose proof (splitlines_not_nil d t) as Hn. rewrite <- E in Hn.
    destruct (splitlines (r +:+ nl)) as [|h l]; [done|].
    by rewrite join_cons_char, IH.
Qed.


End Lines.




(** A marker inside another field breaks the extraction: the second split
    yields three parts and the unpacking raises. *)
Example marker_in_version :
  extract_sections (BUG_TEMPLATE "== Changelog ==" "3 months" "12" "5" "7" "x")
  = Raise ValueError.
Proof. reflexivity. Qed.

(** ** The stage driver *)

Section Monad.

Context {A B : Type}.
Implicit Types (m : M A) (f : A -> M B).

Lemma bind_inv m f w r w' :
  (m ≫= f) w = (r, w') ->
  (exists e, m w = (Raise e, w') /\ r = Raise e) \/
  (exists a w1, m w = (Ok a, w1) /\ f a w1 = (r, w')).
Proof.
  unfold mbind, M_bind. destruct (m w) as [[a|e] w1].
  - intros H. right. eauto.
  - intros [= <- <-]. left. eauto.
Qed.

Lemma bind_exit0 m f w w' :
  no_exit0 m ->
  (m ≫= f) w = (Raise (SystemExit 0), w') ->
  exists a w1, m w = (Ok a, w1) /\ f a w1 = (Raise (SystemExit 0), w').
Proof.
  intros Hm [(e & Hw & He)|H]%bind_inv; [|done].
  exfalso. apply (Hm _ _ _ Hw). by injection He as <-.
Qed.

Lemma no_exit0_bind m f :
  no_exit0 m -> (forall a, no_exit0 (f a)) -> no_exit0 (m ≫= f).
Proof.
  intros Hm Hf w r w' [(e & Hw & ->)|(a & w1 & _ & Hw)]%bind_inv.
  - intros [= ->]. by apply (Hm _ _ _ Hw).
  - by eapply Hf.
Qed.

Lemma no_exit0_ret (a : A) : no_exit0 (mret a).
Proof. by intros w r w' [= <- <-]. Qed.

Lemma no_exit0_raise e : e <> SystemExit 0 -> no_exit0 (@raise A e).
Proof. intros He w r w' [= <- <-]. congruence. Qed.

Lemma no_exit0_lift (r : result A) :
  r <> Raise (SystemExit 0) -> no_exit0 (lift r).
Proof. by intros Hr w r' w' [= <- <-]. Qed.

Lemma no_exit0_catch m e (h : M A) :
  no_exit0 m -> no_exit0 h -> no_exit0 (catch m e h).
Proof.
  intros Hm Hh w r w'. unfold catch.
  destruct (m w) as [[a|e'] w1] eqn:E.
  - intros [= <- <-]. done.
  - case_decide; [apply Hh|]. intros [= <- <-]. by eapply Hm.
Qed.

End Monad.

Section Steps.

Variable env : Env.

Lemma no_exit0_emit e : no_exit0 (emit e).
Proof. by intros w r w' [= <- <-]. Qed.

Lemma no_exit0_print text : no_exit0 (print text).
Proof. apply no_exit0_emit. Qed.

Lemma no_exit0_input prompt : no_exit0 (input prompt).
Proof.
  intros w r w'. unfold input. by destruct (w_stdin w); intros [= <- <-].
Qed.

Lemma no_exit0_sh text : no_exit0 (sh env text).
Proof.
  intros w r w'. unfold sh. by destruct (shell env _ _); intros [= <- <-].
Qed.

Lemma no_exit0_read_file path : no_exit0 (read_file env path).
Proof.
  intros w r w'. unfold read_file.
  by destruct (file_content env _ _); intros [= <- <-].
Qed.

Lemma no_exit0_exists path : no_exit0 (os_path_exists env path).
Proof. by intros w r w' [= <- <-]. Qed.

Lemma no_exit0_createBug p t d : no_exit0 (lp_bugs_createBug env p t d).
Proof.
  intros w r w'. unfold lp_bugs_createBug.
  by destruct (lp_create env _ _ _ _); intros [= <- <-].
Qed.

Lemma no_exit0_cache_get d key : no_exit0 (cache_get d key).
Proof.
  apply no_exit0_lift. by destruct (getitem_total d key) as [x ->].
Qed.

Lemma no_exit0_cache_set d key x : no_exit0 (cache_set d key x).
Proof.
  intros w r w'. unfold cache_set, __setitem__.
  by destruct (cache d !! version d); intros [= <- <-].
Qed.

Lemma no_exit0_int_value x : no_exit0 (lift (int_value x)).
Proof.
  apply no_exit0_lift. destruct x as [| |n|s]; simpl; try done.
  by destruct (int s).
Qed.

Lemma no_exit0_of_option {A} e (o : option A) :
  e <> SystemExit 0 -> no_exit0 (lift (of_option e o)).
Proof. intros He. apply no_exit0_lift. destruct o; simpl; congruence. Qed.

Lemma no_exit0_exit1 {A} : no_exit0 (@sys_exit A 1).
Proof. by apply no_exit0_raise. Qed.

End Steps.

Create HintDb exit0.

#[local] Hint Resolve no_exit0_ret no_exit0_print no_exit0_input no_exit0_sh
  no_exit0_read_file no_exit0_exists no_exit0_createBug no_exit0_cache_get
  no_exit0_cache_set no_exit0_int_value no_exit0_exit1 no_exit0_emit : exit0.

Ltac exit0_step :=
  match goal with
  | |- no_exit0 (_ ≫= _) => apply no_exit0_bind; [|intros ?]
  | |- no_exit0 (if ?b then _ else _) => destruct b
  | |- no_exit0 (let '(_, _) := ?x in _) => destruct x
  | |- no_exit0 (catch _ _ _) => apply no_exit0_catch
  | |- no_exit0 (lift (of_option _ _)) => by apply no_exit0_of_option
  | |- no_exit0 _ => solve [eauto with exit0]
  end.

Ltac exit0 := repeat exit0_step.

Section Premerge.

Variable env : Env.

Lemma no_exit0_checkout : no_exit0 (checkout_main_and_pull env).
Proof. unfold checkout_main_and_pull. exit0. Qed.

Lemma no_exit0_create_release_bug old rv :
  no_exit0 (create_release_bug env old rv).
Proof. unfold create_release_bug, create_bug. exit0. Qed.

Lemma no_exit0_ask_bug_id lines bug_id : no_exit0 (ask_bug_id lines bug_id).
Proof.
  revert bug_id. induction lines as [|l lines IH]; intros bug_id; simpl; exit0.
Qed.

Lemma no_exit0_prepare old rv id cl :
  no_exit0 (prepare_git_branch env old rv id cl).
Proof.
  unfold prepare_git_branch, check_changelog, write_file. exit0.
  - apply no_exit0_checkout.
  - intros w r w'. apply no_exit0_ask_bug_id.
Qed.

End Premerge.

Section Driver.

Variable env : Env.

Lemma bind_ok {A B} (m : M A) (f : A -> M B) w a w1 :
  m w = (Ok a, w1) -> (m ≫= f) w = f a w1.
Proof. unfold mbind, M_bind. by intros ->. Qed.

Lemma bind_raise {A B} (m : M A) (f : A -> M B) w e w1 :
  m w = (Raise e, w1) -> (m ≫= f) w = (Raise e, w1).
Proof. unfold mbind, M_bind. by intros ->. Qed.

Lemma bind_ok_inv {A B} (m : M A) (f : A -> M B) w b w' :
  (m ≫= f) w = (Ok b, w') ->
  exists a w1, m w = (Ok a, w1) /\ f a w1 = (Ok b, w').
Proof. by intros [(e & _ & ?)|H]%bind_inv. Qed.


Lemma cache_set_inv d key x w d' w' :
  cache_set d key x w = (Ok d', w') ->
  __setitem__ d key x = Ok (d', w_file w') /\ version d' = version d /\
  has_entry d' /\ w_trace w' = w_trace w /\ w_stdin w' = w_stdin w.
Proof.
  unfold cache_set. destruct (__setitem__ d key x) as [[d1 f1]|e] eqn:E; [|done].
  intros [= <- <-]. destruct (setitem_has_entry _ _ _ _ _ E) as (? & ? & ?).
  simpl. by split_and!.
Qed.

Lemma cache_set_ok d key x w :
  has_entry d ->
  exists d', cache_set d key x w = (Ok d', set_file w (_save_cache d')) /\
    version d' = version d /\ has_entry d' /\
    __getitem__ d' key = Ok x /\
    (forall k, k <> key -> __getitem__ d' k = __getitem__ d k).
Proof.
  intros Hd. destruct (setitem_ok d key x Hd) as (fs & E & Hs).
  unfold cache_set. rewrite Hs.
  exists {| version := version d;
            cache := <[version d := <[key := x]> fs]> (cache d) |}.
  split; [done|]. split; [done|]. split; [unfold has_entry; simpl; by rewrite lookup_insert_eq|].
  unfold __getitem__, getitem_try; simpl. rewrite lookup_insert_eq, E.
  split; [by rewrite lookup_insert_eq|].
  intros k Hk. by rewrite lookup_insert_ne.
Qed.

Lemma get_old_version_cache cache w v cache' w' :
  get_old_version env cache w = (Ok (v, cache'), w') ->
  version cache' = version cache /\ has_entry cache'.
Proof.
  unfold get_old_version.
  intros (likely & w1 & _ & H)%bind_ok_inv.
  apply bind_ok_inv in H as (response & w2 & _ & H).
  apply bind_ok_inv in H as (c & w3 & Hs & H).
  injection H as <- <- <-.
  by destruct (cache_set_inv _ _ _ _ _ _ Hs) as (_ & ? & ? & _).
Qed.

Lemma resolve_old_version_cache cache w old cache' w' :
  has_entry cache ->
  resolve_old_version env cache w = (Ok (old, cache'), w') ->
  version cache' = version cache /\ has_entry cache'.
Proof.
  intros Hc. unfold resolve_old_version.
  intros (cached & w1 & _ & H)%bind_ok_inv.
  destruct (truthy_value cached).
  - by injection H as <- <- <-.
  - apply bind_ok_inv in H as ([v c] & w2 & Hg & H).
    injection H as <- <- <-. by eapply get_old_version_cache.
Qed.

Lemma bug_stage_cache st rv old cache w b cache' w' :
  has_entry cache ->
  bug_stage env st rv old cache w = (Ok (b, cache'), w') ->
  version cache' = version cache /\ has_entry cache'.
Proof.
  intros Hc. unfold bug_stage. destruct (stage_in st _).
  - intros ([bug cl] & w1 & _ & H)%bind_ok_inv.
    apply bind_ok_inv in H as (c1 & w2 & H1 & H).
    apply bind_ok_inv in H as (c2 & w3 & H2 & H).
    injection H as <- <- <-.
    destruct (cache_set_inv _ _ _ _ _ _ H1) as (_ & V1 & _).
    destruct (cache_set_inv _ _ _ _ _ _ H2) as (_ & V2 & ? & _).
    split; [congruence | done].
  - by intros [= <- <- <-].
Qed.

Lemma no_exit0_resolve cache : no_exit0 (resolve_old_version env cache).
Proof. unfold resolve_old_version, get_old_version. exit0. Qed.

Lemma no_exit0_bug_stage st rv old cache :
  no_exit0 (bug_stage env st rv old cache).
Proof.
  unfold bug_stage. exit0. apply no_exit0_create_release_bug.
Qed.

Lemma no_exit0_branch_stage st rv old cache :
  no_exit0 (branch_stage env st rv old cache).
Proof. unfold branch_stage. exit0. apply no_exit0_prepare. Qed.

(** The hand-over exits with status 0 only after the flag went to the file. *)
Lemma handoff_exit0 st cache bug_id w w' :
  handoff st cache bug_id w = (Raise (SystemExit 0), w') ->
  exists d', __setitem__ cache "premerge-complete" (VBool true) = Ok (d', w_file w').
Proof.
  unfold handoff. destruct (stage_in st _); [|done].
  intros (? & w1 & _ & H)%bind_exit0; [|exit0].
  apply bind_exit0 in H as (b & w2 & _ & H); [|exit0].
  apply bind_exit0 in H as (? & w3 & _ & H); [|exit0].
  apply bind_exit0 in H as (? & w4 & _ & H); [|exit0].
  apply bind_exit0 in H as (d' & w5 & Hs & H); [|exit0].
  injection H as <-. exists d'.
  by destruct (cache_set_inv _ _ _ _ _ _ Hs) as (? & _).
Qed.

Lemma premerge_exit0 st rv cache w w' :
  has_entry cache ->
  premerge env st rv cache w = (Raise (SystemExit 0), w') ->
  __getitem__ (__init__ (version cache) (w_file w')) "premerge-complete" = Ok (VBool true).
Proof.
  intros Hc. unfold premerge.
  intros ([old c1] & w1 & H1 & H)%bind_exit0; [|apply no_exit0_resolve].
  apply bind_exit0 in H as ([b c2] & w2 & H2 & H); [|apply no_exit0_bug_stage].
  apply bind_exit0 in H as (? & w3 & _ & H); [|apply no_exit0_branch_stage].
  apply handoff_exit0 in H as (d' & Hs).
  destruct (resolve_old_version_cache _ _ _ _ _ Hc H1) as [V1 E1].
  destruct (bug_stage_cache _ _ _ _ _ _ _ _ E1 H2) as [V2 E2].
  rewrite <- V1, <- V2. by apply (setitem_get_reload _ _ _ _ _ Hs).
Qed.

Lemma main_all rv w :
  main env All rv w =
    if bool_decide (__getitem__ (__init__ rv (w_file w)) "premerge-complete" = Ok (VBool true))
    then (confirm_merged ≫= fun _ => stages env All rv (__init__ rv (w_file w))) w
    else (premerge env All rv (__init__ rv (w_file w)) ≫=
            fun _ => postmerge env All rv (__init__ rv (w_file w))) w.
Proof.
  unfold main. erewrite bind_ok by reflexivity.
  change (bool_decide (All = PurgeCache)) with false. cbv iota.
  erewrite (bind_ok (mret ())) by reflexivity.
  change (stage_in All [All; CreateReleaseBug; PrepareGitBranch]) with true.
  cbv iota. unfold cache_get.
  destruct (getitem_total (__init__ rv (w_file w)) "premerge-complete") as [x Hx].
  rewrite Hx.
  destruct (decide (x = VBool true)) as [->|Hne].
  - rewrite bool_decide_eq_true_2 by done.
    by erewrite bind_ok by reflexivity.
  - rewrite (bool_decide_eq_false_2 (Ok x = _)) by congruence.
    unfold mbind, M_bind, lift. cbv beta iota.
    by rewrite (bool_decide_eq_false_2 (x = _)) by done.
Qed.

Lemma handoff_all_not_ok cache bug_id w u w' :
  handoff All cache bug_id w <> (Ok u, w').
Proof.
  unfold handoff. change (stage_in All _) with true. cbv iota.
  intros (? & w1 & _ & H)%bind_ok_inv.
  apply bind_ok_inv in H as (? & w2 & _ & H).
  apply bind_ok_inv in H as (? & w3 & _ & H).
  apply bind_ok_inv in H as (? & w4 & _ & H).
  apply bind_ok_inv in H as (? & w5 & _ & H).
  discriminate H.
Qed.

Lemma premerge_all_not_ok rv cache w u w' :
  premerge env All rv cache w <> (Ok u, w').
Proof.
  unfold premerge.
  intros ([old c1] & w1 & _ & H)%bind_ok_inv.
  apply bind_ok_inv in H as ([b c2] & w2 & _ & H).
  apply bind_ok_inv in H as (? & w3 & _ & H).
  by apply handoff_all_not_ok in H.
Qed.

Lemma confirm_merged_events w :
  exists r w' later,
    confirm_merged w = (r, w') /\ w_file w' = w_file w /\
    w_trace w' =
      later ++
      [EPrompt "Has git branch been merged (y/N)? ";
       EPrint "Do NOT proceed until the git branch for this upstream release has been merged!"] ++
      w_trace w /\
    (later = [] \/
     later = [EPrint "Re-run script once branch has been merged"] /\
     r = Raise (SystemExit 1)).
Proof.
  unfold confirm_merged, mbind, M_bind, print, emit, input; simpl.
  destruct (w_stdin w) as [|l rest]; simpl.
  - exists (Raise EOFError). eexists. exists []. split_and!; eauto.
  - destruct (bool_decide (lower l = "y")); simpl.
    + exists (Ok ()). eexists. exists []. split_and!; eauto.
    + exists (Raise (SystemExit 1)). eexists.
      exists [EPrint "Re-run script once branch has been merged"].
      split_and!; eauto.
Qed.

End Driver.

(** C1.  For the composite stage the [premerge-complete] flag of the
    version decides alone between the pre-merge block and the rest: with the
    flag true the run is the merge confirmation followed by the post-merge
    stages, and the confirmation begins with its notice and its prompt and
    writes nothing; a run that went through the pre-merge block and exited
    with status 0 has left the flag true in the file, so the next run for the
    same version goes straight to the confirmation. *)
Theorem premerge_gate (env : Env) (rv : string) :
  (forall w,
      main env All rv w =
        if bool_decide (__getitem__ (__init__ rv (w_file w)) "premerge-complete"
                        = Ok (VBool true))
        then (confirm_merged ≫= fun _ => stages env All rv (__init__ rv (w_file w))) w
        else (premerge env All rv (__init__ rv (w_file w)) ≫=
                fun _ => postmerge env All rv (__init__ rv (w_file w))) w) /\
  (forall w, exists r w' later,
      confirm_merged w = (r, w') /\ w_file w' = w_file w /\
      w_trace w' =
        later ++
        [EPrompt "Has git branch been merged (y/N)? ";
         EPrint "Do NOT proceed until the git branch for this upstream release has been merged!"] ++
        w_trace w /\
      (later = [] \/
       later = [EPrint "Re-run script once branch has been merged"] /\
       r = Raise (SystemExit 1))) /\
  (forall w w1,
      __getitem__ (__init__ rv (w_file w)) "premerge-complete" <> Ok (VBool true) ->
      main env All rv w = (Raise (SystemExit 0), w1) ->
      __getitem__ (__init__ rv (w_file w1)) "premerge-complete" = Ok (VBool true) /\
      forall w2, w_file w2 = w_file w1 ->
        main env All rv w2 =
          (confirm_merged ≫= fun _ => stages env All rv (__init__ rv (w_file w2))) w2).
Proof.
  split_and!.
  - apply main_all.
  - apply confirm_merged_events.
  - intros w w1 Hflag Hrun.
    rewrite main_all, bool_decide_eq_false_2 in Hrun by done.
    assert (__getitem__ (__init__ rv (w_file w1)) "premerge-complete" = Ok (VBool true))
      as Hset.
    { apply bind_inv in Hrun as [(e & Hp & He)|(u & w' & Hp & _)].
      - injection He as <-.
        apply (premerge_exit0 env All rv (__init__ rv (w_file w)) w w1);
          [apply init_has_entry | done].
      - by apply premerge_all_not_ok in Hp. }
    split; [done|]. intros w2 Hw.
    rewrite main_all, Hw. by rewrite bool_decide_eq_true_2.
Qed.

(** A first and a second run of the composite stage in the quiet
    environment: the first creates the bug, prepares the branch and exits
    with status 0; the second only asks for the merge confirmation. *)
Example two_runs :
  let w := {| w_file := None; w_stdin := [""; "y"; ""; "y"]; w_trace := [] |} in
  let r1 := main (env0 2024) All "24.1" w in
  r1.1 = Raise (SystemExit 0) /\
  let w2 := {| w_file := w_file r1.2; w_stdin := ["n"]; w_trace := [] |} in
  let r2 := main (env0 2024) All "24.1" w2 in
  r2.1 = Raise (SystemExit 1) /\
  w_trace r2.2 =
    [EPrint "Re-run script once branch has been merged";
     EPrompt "Has git branch been merged (y/N)? ";
     EPrint "Do NOT proceed until the git branch for this upstream release has been merged!"].
Proof. vm_compute. by split_and!. Qed.

(** C8, the failing path.  When the bug stage of the composite run hands
    back the empty identifier (the operator declined), [main] stores it and
    then raises [ValueError] from [int(cache["bug_id"])]: nothing is printed
    or asked after the bug stage, and the loop asking for an identifier in
    [prepare_git_branch] is never entered. *)
Theorem declined_bug_raises (env : Env) (rv : string) (w w1 w2 : world)
    (old : value) (cache1 : CachedDict) (changelog : string) :
  __getitem__ (__init__ rv (w_file w)) "premerge-complete" <> Ok (VBool true) ->
  resolve_old_version env (__init__ rv (w_file w)) w = (Ok (old, cache1), w1) ->
  create_release_bug env old rv w1 = (Ok (VStr "", changelog), w2) ->
  exists w3,
    main env All rv w = (Raise ValueError, w3) /\
    w_trace w3 = w_trace w2 /\ w_stdin w3 = w_stdin w2.
Proof.
  intros Hflag Hold Hbug.
  rewrite main_all, bool_decide_eq_false_2 by done.
  destruct (resolve_old_version_cache env _ _ _ _ _ (init_has_entry rv _) Hold)
    as [_ E1].
  destruct (cache_set_ok cache1 "bug_id" (VStr "") w2 E1)
    as (c2 & Hs2 & _ & E2 & G2 & _).
  destruct (cache_set_ok c2 "changelog" (VStr changelog)
              (set_file w2 (_save_cache c2)) E2)
    as (c3 & Hs3 & _ & E3 & _ & G3).
  eexists. split.
  - apply bind_raise. unfold premerge.
    erewrite bind_ok by exact Hold. cbv beta iota.
    erewrite (bind_ok (bug_stage env All rv old cache1)).
    2:{ unfold bug_stage. change (stage_in All _) with true. cbv iota.
        erewrite bind_ok by exact Hbug. cbv beta iota.
        erewrite bind_ok by exact Hs2.
        erewrite bind_ok by exact Hs3. reflexivity. }
    cbv beta iota. apply bind_raise.
    unfold branch_stage. change (stage_in All _) with true. cbv iota.
    unfold cache_get. rewrite (G3 "bug_id"), G2 by done.
    erewrite bind_ok by reflexivity. reflexivity.
  - done.
Qed.

Lemma declined_bug_raises_witness :
  let w := {| w_file := None; w_stdin := [""; "n"; ""]; w_trace := [] |} in
  __getitem__ (__init__ "24.1" (w_file w)) "premerge-complete" <> Ok (VBool true) /\
  exists w3,
    main (env0 2024) All "24.1" w = (Raise ValueError, w3) /\
    head (w_trace w3) = Some (EPrompt "Press Enter to continue") /\
    w_stdin w3 = [].
Proof.
  split; [vm_compute; discriminate|].
  edestruct (declined_bug_raises (env0 2024) "24.1"
               {| w_file := None; w_stdin := [""; "n"; ""]; w_trace := [] |})
    as (w3 & Hm & Ht & Hs);
    [vm_compute; discriminate | vm_compute; reflexivity
     | vm_compute; reflexivity |].
  exists w3. split; [exact Hm|]. split; [rewrite Ht | rewrite Hs]; reflexivity.
Defined.

(** * Further properties *)

(** ** The cache file shared by several versions *)

Lemma setitem_frame (d d' : CachedDict) (f' : file)
    (key key' : string) (x : value) :
  key <> key' ->
  __setitem__ d key x = Ok (d', f') ->
  __getitem__ d' key' = __getitem__ d key' /\
  __getitem__ (__init__ (version d) f') key' = __getitem__ d key'.
Proof.
  intros Hk. unfold __setitem__.
  destruct (cache d !! version d) as [fs|] eqn:E; [|done].
  intros [= <- <-]. unfold __getitem__, getitem_try, __init__; simpl.
  rewrite !lookup_insert_eq; simpl. rewrite ?lookup_insert_eq, E.
  by rewrite lookup_insert_ne.
Qed.

(** X1. Writing one field leaves every other field of the version as it
    was, on the live object and after a reload from the file. *)
Theorem setitem_other_field (d d' : CachedDict) (f' : file)
    (key key' : string) (x : value) :
  key <> key' ->
  __setitem__ d key x = Ok (d', f') ->
  __getitem__ d' key' = __getitem__ d key' /\
  __getitem__ (__init__ (version d) f') key' = __getitem__ d key'.
Proof. apply setitem_frame. Qed.

Lemma setitem_other_field_witness :
  let d := __init__ "24.1" None in
  exists d' f',
    __setitem__ d "bug_id" (VInt 7) = Ok (d', f') /\
    __getitem__ d' "changelog" = __getitem__ d "changelog" /\
    __getitem__ (__init__ (version d) f') "changelog" = __getitem__ d "changelog".
Proof.
  do 2 eexists. split; [reflexivity|].
  apply (setitem_other_field (__init__ "24.1" None) _ _ "bug_id" "changelog" (VInt 7));
    [discriminate | reflexivity].
Defined.

Lemma init_lookup_other v v' f :
  v' <> v ->
  cache (__init__ v f) !! v' = (match f with Some c => c | None => ∅ end) !! v'.
Proof.
  intros Hv. unfold __init__; simpl.
  set (c := match f with Some c => c | None => ∅ end).
  destruct (c !! v); [done|]. by rewrite lookup_insert_ne.
Qed.

Lemma getitem_init_other_file v f1 f2 key :
  (match f1 with Some c => c | None => ∅ end) !! v =
  (match f2 with Some c => c | None => ∅ end) !! v ->
  __getitem__ (__init__ v f1) key = __getitem__ (__init__ v f2) key.
Proof.
  intros H. unfold __getitem__, getitem_try, __init__; simpl.
  set (c1 := match f1 with Some c => c | None => ∅ end) in *.
  set (c2 := match f2 with Some c => c | None => ∅ end) in *.
  destruct (c1 !! v) as [fs|] eqn:E1; destruct (c2 !! v) as [fs2|] eqn:E2;
    try discriminate H.
  - injection H as <-. by rewrite E1, E2.
  - by rewrite !lookup_insert_eq.
Qed.

(** X2. The file is shared by all versions, and work on one version never
    loses what another has stored: after a field was set for [v1], a later
    process for a different version [v2] may set any field or purge, and a
    process for [v1] started from the file it leaves still reads the field. *)
Theorem other_version_survives (f0 f1 : file) (v1 v2 key : string) (x : value)
    (d1 : CachedDict) :
  v1 <> v2 ->
  __setitem__ (__init__ v1 f0) key x = Ok (d1, f1) ->
  (forall key2 y d2 f2,
      __setitem__ (__init__ v2 f1) key2 y = Ok (d2, f2) ->
      __getitem__ (__init__ v1 f2) key = Ok x) /\
  __getitem__ (__init__ v1 (purge (__init__ v2 f1)).2) key = Ok x.
Proof.
  intros Hv Hs.
  destruct (setitem_get_reload _ _ _ _ _ Hs) as [_ Hr]. simpl in Hr.
  split.
  - intros key2 y d2 f2 H2. rewrite <- Hr.
    apply getitem_init_other_file.
    unfold __setitem__ in H2.
    destruct (cache (__init__ v2 f1) !! version (__init__ v2 f1)) as [fs|];
      [|done].
    injection H2 as <- <-. simpl.
    rewrite lookup_insert_ne by done. by apply init_lookup_other.
  - rewrite <- Hr. apply getitem_init_other_file. simpl.
    rewrite lookup_insert_ne by done. by apply init_lookup_other.
Qed.

Lemma other_version_survives_witness :
  exists d1 f1,
    __setitem__ (__init__ "24.1" None) "bug_id" (VInt 7) = Ok (d1, f1) /\
    __getitem__ (__init__ "24.1" (purge (__init__ "24.2" f1)).2) "bug_id"
    = Ok (VInt 7).
Proof.
  do 2 eexists. split; [reflexivity|].
  refine (proj2 (other_version_survives None _ "24.1" "24.2" "bug_id" (VInt 7) _
                   _ _)); [discriminate | reflexivity].
Defined.

(** ** Stages of the driver *)

(** X3. The [purge-cache] stage asks nothing and runs no command: it prints
    one line and exits with status 0, after which every field of the version
    reads as [None] in a new process, while the fields of every other
    version read as before. *)
Theorem purge_cache_stage (env : Env) (rv : string) (w : world) :
  exists w',
    main env PurgeCache rv w = (Raise (SystemExit 0), w') /\
    w_stdin w' = w_stdin w /\
    w_trace w' = EPrint ("Cache purged for version " +:+ rv) :: w_trace w /\
    (forall key, __getitem__ (__init__ rv (w_file w')) key = Ok VNone) /\
    (forall v' key, v' <> rv ->
       __getitem__ (__init__ v' (w_file w')) key =
       __getitem__ (__init__ v' (w_file w)) key).
Proof.
  eexists. split; [reflexivity|]. simpl. split_and!; try done.
  - intros key. unfold __getitem__, getitem_try, __init__; simpl.
    by rewrite !lookup_insert_eq; simpl; rewrite ?lookup_insert_eq, ?lookup_empty.
  - intros v' key Hv. apply getitem_init_other_file. simpl.
    rewrite lookup_insert_ne by done. by apply init_lookup_other.
Qed.

(** X4. The merge confirmation defaults to no: with a line of input the
    composite stage goes on only for "y" or "Y", and every other answer,
    the empty one included, prints the reminder and exits with status 1. *)
Theorem confirm_merged_default_no (w : world) (answer : string)
    (rest : list string) :
  w_stdin w = answer :: rest ->
  (confirm_merged w).1 =
    (if bool_decide (answer = "y" \/ answer = "Y")
     then Ok () else Raise (SystemExit 1)) /\
  w_stdin (confirm_merged w).2 = rest.
Proof.
  intros Hw. unfold confirm_merged, mbind, M_bind, print, emit, input; simpl.
  rewrite Hw. simpl.
  destruct (decide (lower answer = "y")) as [Hy|Hn].
  - rewrite (bool_decide_eq_true_2 _ Hy). simpl.
    by rewrite bool_decide_eq_true_2 by (by apply lower_y).
  - rewrite (bool_decide_eq_false_2 _ Hn). simpl.
    by rewrite bool_decide_eq_false_2 by (by rewrite <- lower_y).
Qed.

Lemma confirm_merged_default_no_witness :
  let w := {| w_file := None; w_stdin := [""]; w_trace := [] |} in
  (confirm_merged w).1 = Raise (SystemExit 1) /\
  w_stdin (confirm_merged w).2 = [].
Proof.
  apply (confirm_merged_default_no
           {| w_file := None; w_stdin := [""]; w_trace := [] |} "" []).
  reflexivity.
Defined.

Section Primitives.

Variable env : Env.

Lemma sh_inv cmd w r w' :
  sh env cmd w = (r, w') ->
  w' = set_trace w (ESh cmd :: w_trace w) /\
  r = match shell env (w_trace w) cmd with
      | Some out => Ok (rstrip out)
      | None => Raise CalledProcessError
      end.
Proof. unfold sh. by destruct (shell env _ _); intros [= <- <-]. Qed.

Lemma input_inv prompt w r w' :
  input prompt w = (r, w') ->
  w_trace w' = EPrompt prompt :: w_trace w /\ w_file w' = w_file w /\
  (w_stdin w = [] /\ w_stdin w' = [] /\ r = Raise EOFError \/
   exists l, w_stdin w = l :: w_stdin w' /\ r = Ok l).
Proof.
  unfold input. destruct (w_stdin w) as [|l rest] eqn:E; intros [= <- <-];
    simpl; split_and!; eauto.
Qed.

Lemma print_inv text w r w' :
  print text w = (r, w') ->
  r = Ok () /\ w' = set_trace w (EPrint text :: w_trace w).
Proof. by intros [= <- <-]. Qed.

Lemma ret_inv {A} (a : A) w r w' :
  (mret a : M A) w = (r, w') -> r = Ok a /\ w' = w.
Proof. by intros [= <- <-]. Qed.

End Primitives.

(** X5. The old version is asked for once.  When the pre-merge block has
    settled on a non-empty old version, the cache holds it, and a later
    process for the same version takes it from the file: it runs no command
    and asks nothing. *)
Theorem old_version_asked_once (env : Env) (rv : string) (w w' : world)
    (old : value) (cache' : CachedDict) :
  resolve_old_version env (__init__ rv (w_file w)) w = (Ok (old, cache'), w') ->
  truthy_value old = true ->
  __getitem__ cache' "old_version" = Ok old /\
  forall w2, w_file w2 = w_file w' ->
    resolve_old_version env (__init__ rv (w_file w2)) w2 =
      (Ok (old, __init__ rv (w_file w2)), w2).
Proof.
  intros Hr Ht.
  assert (forall c w2, __getitem__ c "old_version" = Ok old ->
            resolve_old_version env c w2 = (Ok (old, c), w2)) as Hagain.
  { intros c w2 Hc. unfold resolve_old_version, cache_get.
    rewrite Hc. erewrite bind_ok by reflexivity. by rewrite Ht. }
  unfold resolve_old_version, cache_get in Hr.
  destruct (getitem_total (__init__ rv (w_file w)) "old_version") as [x Hx].
  rewrite Hx in Hr. erewrite bind_ok in Hr by reflexivity.
  destruct (truthy_value x) eqn:Tx.
  - injection Hr as <- <- <-. split; [done|].
    intros w2 ->. by apply Hagain.
  - apply bind_ok_inv in Hr as ([v c] & w1 & Hg & Hr).
    injection Hr as <- <- <-.
    unfold get_old_version in Hg.
    apply bind_ok_inv in Hg as (likely & wa & _ & Hg).
    apply bind_ok_inv in Hg as (response & wb & _ & Hg).
    apply bind_ok_inv in Hg as (c' & wc & Hs & Hg).
    injection Hg as Hv <- <-.
    destruct (cache_set_inv _ _ _ _ _ _ Hs) as (Hset & Hver & He & _).
    destruct (setitem_get_reload _ _ _ _ _ Hset) as [Hlive Hreload].
    rewrite Hv in Hlive, Hreload. simpl in Hreload.
    split; [done|]. intros w2 ->. by apply Hagain.
Qed.

Lemma old_version_asked_once_witness :
  let w := {| w_file := None; w_stdin := ["23.4"]; w_trace := [] |} in
  exists cache' w',
    resolve_old_version (env0 2024) (__init__ "24.1" (w_file w)) w =
      (Ok (VStr "23.4", cache'), w') /\
    __getitem__ cache' "old_version" = Ok (VStr "23.4") /\
    forall w2, w_file w2 = w_file w' ->
      resolve_old_version (env0 2024) (__init__ "24.1" (w_file w2)) w2 =
        (Ok (VStr "23.4", __init__ "24.1" (w_file w2)), w2).
Proof.
  do 2 eexists. split; [vm_compute; reflexivity|].
  eapply (old_version_asked_once (env0 2024) "24.1"
            {| w_file := None; w_stdin := ["23.4"]; w_trace := [] |});
    [vm_compute; reflexivity | reflexivity].
Defined.

(** ** Version prompts *)



(** X7. [get_next_version] needs a minor component: for a version that is
    a single numeral it raises [IndexError] without showing the prompt. *)
Theorem next_version_no_minor (env : Env) (current_version : string)
    (w : world) :
  numeral current_version = true ->
  get_next_version env current_version w = (Raise IndexError, w).
Proof.
  intros Hn. unfold get_next_version, likely_next_version, split.
  apply bind_raise. unfold lift. simpl.
  rewrite split_dot_plain
    by (apply all_digits_no_dot; by apply andb_true_iff in Hn as [_ ?]).
  simpl. by rewrite (int_numeral _ Hn).
Qed.

Lemma next_version_no_minor_witness :
  let w := {| w_file := None; w_stdin := ["25.1"]; w_trace := [] |} in
  get_next_version (env0 2024) "24" w = (Raise IndexError, w).
Proof. apply (next_version_no_minor (env0 2024) "24"). reflexivity. Defined.



Section BugTitle.

Lemma tails_free_nil sep : tails_free sep "" = true.
Proof.
  induction sep as [|c sep IH]; [done|]. cbn [tails_free]. rewrite IH.
  by destruct sep.
Qed.

Lemma free_until_whole sep s : contains sep s = false -> free_until sep s "" = true.
Proof. intros H. apply free_until_field; [done | apply tails_free_nil]. Qed.

Lemma split_not_contained sep s :
  contains sep s = false -> split_go sep 0 s = [s].
Proof. intros H. by apply split_go_whole, free_until_whole. Qed.

End BugTitle.

(** X9. The release version is recovered from the title of the release bug:
    [create_release_bug] titles the bug "Release V", and for a title of that
    form whose V does not itself contain "Release ",
    [get_release_version_from_bug] returns V with surrounding whitespace
    stripped. *)
Theorem version_from_bug_title (bug_summary : Z -> option string) (bug_id : Z)
    (v : string) :
  bug_summary bug_id = Some ("Release " +:+ v) ->
  contains "Release " v = false ->
  get_release_version_from_bug bug_summary bug_id = Ok (strip v).
Proof.
  intros Hs Hc. unfold get_release_version_from_bug. rewrite Hs.
  unfold split. cbn [of_option mbind result_bind].
  rewrite split_go_match by done.
  by rewrite (split_not_contained _ _ Hc).
Qed.

Lemma version_from_bug_title_witness :
  get_release_version_from_bug (fun _ => Some "Release 24.1") 2000000
  = Ok "24.1".
Proof.
  apply (version_from_bug_title (fun _ => Some "Release 24.1") 2000000 "24.1");
    reflexivity.
Defined.

(** X10. A bug whose title does not contain "Release " gives no version:
    the lookup of the second part raises [IndexError]. *)
Theorem version_from_other_title (bug_summary : Z -> option string)
    (bug_id : Z) (summary : string) :
  bug_summary bug_id = Some summary ->
  contains "Release " summary = false ->
  get_release_version_from_bug bug_summary bug_id = Raise IndexError.
Proof.
  intros Hs Hc. unfold get_release_version_from_bug. rewrite Hs.
  unfold split. cbn [of_option mbind result_bind].
  by rewrite (split_not_contained _ _ Hc).
Qed.

Lemma version_from_other_title_witness :
  get_release_version_from_bug (fun _ => Some "release 24.1") 1 = Raise IndexError.
Proof.
  apply (version_from_other_title (fun _ => Some "release 24.1") 1 "release 24.1");
    reflexivity.
Defined.

(** ** Guards of the post-merge stages *)

Ltac run_in H :=
  cbn -[affirmative contains rstrip strip split_ws tag_cmd push_cmd
        released_cmd String.append fmt lower join BUG_TEMPLATE drop_last
        startswith str] in H;
  repeat (case_match; simplify_eq;
          cbn -[affirmative contains rstrip strip split_ws tag_cmd push_cmd
                released_cmd String.append fmt lower join BUG_TEMPLATE
                drop_last startswith str] in * ).

Ltac other_event H :=
  first [ discriminate H
        | injection H as H;
          unfold tag_cmd, push_cmd, released_cmd in H; cbn in H;
          discriminate H ].

Ltac trace_cases :=
  repeat match goal with
         | H : _ ∈ _ :: _ |- _ =>
             apply elem_of_cons in H as [H|H]; [try other_event H|]
         end.

Ltac bool_facts :=
  repeat match goal with
         | H : negb _ = false |- _ => apply negb_false_iff in H
         | H : negb _ = true |- _ => apply negb_true_iff in H
         | H : bool_decide _ = true |- _ => apply bool_decide_eq_true in H
         | H : bool_decide _ = false |- _ => apply bool_decide_eq_false in H
         end.

(** X11. [tag_release] tags only the release commit on main: the tag
    command is run only after the operator agreed, the one-line log of HEAD
    contained "Release V" and the current branch was "main"; and the push is
    run only after the tag command succeeded. *)
Theorem tag_release_guard (env : Env) (rv : string) (w w' : world)
    (r : result unit) :
  tag_release env rv w = (r, w') ->
  (ESh (tag_cmd rv) ∈ w_trace w' ->
   ESh (tag_cmd rv) ∈ w_trace w \/
   exists answer rest out1 out2 tr1 tr2,
     w_stdin w = answer :: rest /\ affirmative answer = true /\
     shell env tr1 "git show HEAD --pretty=oneline --no-patch" = Some out1 /\
     contains ("Release " +:+ rv) (rstrip out1) = true /\
     shell env tr2 "git rev-parse --abbrev-ref HEAD" = Some out2 /\
     rstrip out2 = "main") /\
  (forall upstream,
     ESh (push_cmd upstream rv) ∈ w_trace w' ->
     ESh (push_cmd upstream rv) ∈ w_trace w \/
     exists tr out, shell env tr (tag_cmd rv) = Some out).
Proof.
  intros H. destruct w as [f0 lines tr].
  unfold tag_release, mbind, M_bind, input, sh, print, emit, lift, mret, M_ret,
    set_trace, of_option in H.
  split; [intros Hin | intros upstream Hin].
  - run_in H; trace_cases; bool_facts; try (by left).
    all: right; do 6 eexists; split_and!; eauto; done.
  - run_in H; trace_cases; bool_facts; try (by left).
    all: right; eauto.
Qed.

Lemma tag_release_guard_witness :
  let env := env_sh (fun cmd =>
    if bool_decide (cmd = "git show HEAD --pretty=oneline --no-patch")
    then Some "0a1b2c3 Release 24.1"
    else if bool_decide (cmd = "git rev-parse --abbrev-ref HEAD")
    then Some "main" else Some "origin git@github.com:canonical/cloud-init (push)") in
  let w := {| w_file := None; w_stdin := ["y"]; w_trace := [] |} in
  exists r w',
    tag_release env "24.1" w = (r, w') /\
    w_trace w' =
      [ESh "git push origin 24.1"; EPrint "Running: git push origin 24.1";
       ESh "git tag --annotate --sign -m 'Release 24.1' 24.1";
       EPrint "Running: git tag --annotate --sign -m 'Release 24.1' 24.1";
       ESh "git rev-parse --abbrev-ref HEAD";
       ESh "git show HEAD --pretty=oneline --no-patch";
       ESh ("git remote -v | grep " +:+ dq +:+ "canonical/cloud-init.*push" +:+ dq);
       EPrompt "Tag 24.1 release and push to github (Y/n)? "] /\
    (forall upstream,
       ESh (push_cmd upstream "24.1") ∈ w_trace w' ->
       ESh (push_cmd upstream "24.1") ∈ w_trace w \/
       exists tr out, shell env tr (tag_cmd "24.1") = Some out).
Proof.
  intros env w. do 2 eexists. split; [vm_compute; reflexivity|].
  split; [reflexivity|].
  refine (proj2 (tag_release_guard env "24.1" w _ _ _)).
  vm_compute; reflexivity.
Defined.

(** X12. [close_all_bugs] releases bugs only for a range git can list: the
    [lp-bugs-released] command is run only after the operator agreed and the
    [git log] of the range succeeded; when that [git log] fails, the function
    prints the hint about the missing tag and returns normally. *)
Theorem close_all_bugs_guard (env : Env) (old : value) (rv : string)
    (w w' : world) (r : result unit) :
  close_all_bugs env old rv w = (r, w') ->
  (forall bugs,
     ESh (released_cmd rv bugs) ∈ w_trace w' ->
     ESh (released_cmd rv bugs) ∈ w_trace w \/
     exists answer rest tr out,
       w_stdin w = answer :: rest /\ affirmative answer = true /\
       shell env tr ("git log " +:+ (fmt old +:+ ".." +:+ rv) +:+
                     " 2>&1 >/dev/null") = Some out) /\
  (forall answer rest,
     w_stdin w = answer :: rest -> affirmative answer = true ->
     shell env (w_trace (input ("Close all bugs from " +:+ fmt old +:+ " to " +:+
                                rv +:+ " (Y/n)? ") w).2)
           ("git log " +:+ (fmt old +:+ ".." +:+ rv) +:+ " 2>&1 >/dev/null")
     = None ->
     r = Ok () /\
     head (w_trace w') =
       Some (EPrint ("Error obtaining commits between " +:+ fmt old +:+
                     " and " +:+ rv +:+
                     ". Did you forget to tag the release?"))).
Proof.
  intros H. destruct w as [f0 lines tr].
  unfold close_all_bugs, catch, mbind, M_bind, input, sh, print, emit, lift,
    mret, M_ret, set_trace, of_option in H.
  split; [intros bugs Hin | intros answer rest Hw Ha Hs].
  - run_in H; trace_cases; bool_facts; try (by left).
    all: right; do 4 eexists; split_and!; eauto; done.
  - simpl in Hw. subst lines. unfold input in Hs. simpl in Hs.
    run_in H; try done; congruence.
Qed.

Lemma close_all_bugs_guard_witness :
  let env := env_sh (fun _ => None) in
  let w := {| w_file := None; w_stdin := ["y"]; w_trace := [] |} in
  exists r w',
    close_all_bugs env (VStr "23.4") "24.1" w = (r, w') /\
    r = Ok () /\
    head (w_trace w') =
      Some (EPrint "Error obtaining commits between 23.4 and 24.1. Did you forget to tag the release?").
Proof.
  intros env w. do 2 eexists. split; [vm_compute; reflexivity|].
  refine (proj2 (close_all_bugs_guard env (VStr "23.4") "24.1" w _ _ _)
            "y" [] _ _ _); reflexivity.
Defined.

(** ** Choosing the series *)

Section SeriesFacts.

Variable series : Type.
Variable name : series -> string.

Lemma ask_series_found lines (lp_series : list series) default w s w' :
  ask_series series name lines lp_series default w = (Ok s, w') ->
  s ∈ lp_series /\
  List.find (fun t => bool_decide (name t = name s)) lp_series = Some s /\
  (name s = default \/ name s ∈ w_stdin w).
Proof.
  revert w. induction lines as [|l lines IH]; intros w; cbn [ask_series];
    intros (answer & w1 & Hi & H)%bind_ok_inv;
    apply input_inv in Hi as (_ & _ & [(_ & _ & ?)|(a & Hw & [= ->])]);
    try done.
  - (* no further line: the loop cannot go round again *)
    set (n := if truthy (strip a) then a else default) in *.
    assert (name s = n -> name s = default \/ name s ∈ w_stdin w) as Hn.
    { intros ->. unfold n. destruct (truthy (strip a)); [right|by left].
      rewrite Hw. by left. }
    destruct (bool_decide (n ∈ name <$> lp_series)).
    + destruct (List.find (fun t => bool_decide (name t = n)) lp_series)
        as [t|] eqn:F; [|done].
      injection H as -> ->.
      pose proof (find_some _ _ F) as [Hin Heq].
      apply bool_decide_eq_true in Heq.
      split_and!; [by apply list_elem_of_In | by rewrite Heq | by apply Hn].
    + by apply bind_ok_inv in H as (? & ? & _ & ?).
  - set (n := if truthy (strip a) then a else default) in *.
    assert (name s = n -> name s = default \/ name s ∈ w_stdin w) as Hn.
    { intros ->. unfold n. destruct (truthy (strip a)); [right|by left].
      rewrite Hw. by left. }
    assert (forall w2, w_stdin w2 = w_stdin w1 ->
              ask_series series name lines lp_series default w2 = (Ok s, w') ->
              s ∈ lp_series /\
              List.find (fun t => bool_decide (name t = name s)) lp_series = Some s /\
              (name s = default \/ name s ∈ w_stdin w)) as Hloop.
    { intros w2 Hw2 H2. destruct (IH _ H2) as (? & ? & [?|Hin]); split_and!; auto.
      right. rewrite Hw, <- Hw2. by right. }
    destruct (bool_decide (n ∈ name <$> lp_series)).
    + destruct (List.find (fun t => bool_decide (name t = n)) lp_series)
        as [t|] eqn:F; [|by apply (Hloop w1)].
      injection H as -> ->.
      pose proof (find_some _ _ F) as [Hin Heq].
      apply bool_decide_eq_true in Heq.
      split_and!; [by apply list_elem_of_In | by rewrite Heq | by apply Hn].
    + apply bind_ok_inv in H as (? & w2 & Hp & H).
      apply print_inv in Hp as [_ ->]. eapply Hloop; [|exact H]. done.
Qed.

End SeriesFacts.

(** X13. [get_series] never hands back a series the project does not have:
    a series it returns is the first series of the project with its name, and
    that name is the offered default or a line the operator typed. *)
Theorem get_series_member (series : Type) (name : series -> string)
    (lp_series : list series) (rv : string) (w w' : world) (s : series) :
  get_series series name lp_series rv w = (Ok s, w') ->
  s ∈ lp_series /\
  List.find (fun t => bool_decide (name t = name s)) lp_series = Some s /\
  (default_series series name lp_series rv = Ok (name s) \/ name s ∈ w_stdin w).
Proof.
  unfold get_series. intros (default & w1 & Hd & H)%bind_ok_inv.
  unfold lift in Hd. injection Hd as Hd <-.
  unfold with_stdin in H. apply ask_series_found in H as (? & ? & [E|?]);
    split_and!; auto. left. by rewrite Hd, E.
Qed.

Lemma get_series_member_witness :
  let w := {| w_file := None; w_stdin := ["23.4"; ""]; w_trace := [] |} in
  exists w',
    get_series string id ["trunk"; "24.1"] "24.1.2" w = (Ok "24.1", w') /\
    w_trace w' =
      [EPrompt "Specify series to upload to (24.1): ";
       EPrint "Invalid series. Your options are trunk, 24.1";
       EPrompt "Specify series to upload to (24.1): "] /\
    "24.1" ∈ ["trunk"; "24.1"] /\
    (default_series string id ["trunk"; "24.1"] "24.1.2" = Ok "24.1" \/
     "24.1" ∈ w_stdin w).
Proof.
  intros w. eexists. split; [vm_compute; reflexivity|]. split; [reflexivity|].
  destruct (get_series_member string id ["trunk"; "24.1"] "24.1.2" w _ "24.1"
              ltac:(vm_compute; reflexivity)) as (Hin & _ & Hd).
  by split.
Defined.

(** ** What the pre-merge stages leave in the cache *)

Section KeepsFile.

Context {A B : Type}.

Lemma keeps_file_bind (m : M A) (f : A -> M B) :
  keeps_file m -> (forall a, keeps_file (f a)) -> keeps_file (m ≫= f).
Proof.
  intros Hm Hf w r w' [(e & Hw & _)|(a & w1 & Hw & Hk)]%bind_inv.
  - by eapply Hm.
  - rewrite (Hf _ _ _ _ Hk). by eapply Hm.
Qed.

Lemma keeps_file_ret (a : A) : keeps_file (mret a).
Proof. by intros w r w' [= <- <-]. Qed.

Lemma keeps_file_raise e : keeps_file (@raise A e).
Proof. by intros w r w' [= <- <-]. Qed.

Lemma keeps_file_lift (r : result A) : keeps_file (lift r).
Proof. by intros w r' w' [= <- <-]. Qed.

Lemma keeps_file_catch (m : M A) e (h : M A) :
  keeps_file m -> keeps_file h -> keeps_file (catch m e h).
Proof.
  intros Hm Hh w r w'. unfold catch.
  destruct (m w) as [[a|e'] w1] eqn:E.
  - intros [= <- <-]. by eapply Hm.
  - case_decide.
    + intros Hk. rewrite (Hh _ _ _ Hk). by eapply Hm.
    + intros [= <- <-]. by eapply Hm.
Qed.

End KeepsFile.

Section KeepsFileSteps.

Variable env : Env.

Lemma keeps_file_emit e : keeps_file (emit e).
Proof. by intros w r w' [= <- <-]. Qed.

Lemma keeps_file_print text : keeps_file (print text).
Proof. apply keeps_file_emit. Qed.

Lemma keeps_file_input prompt : keeps_file (input prompt).
Proof. intros w r w' H. by apply input_inv in H as (_ & ? & _). Qed.

Lemma keeps_file_sh text : keeps_file (sh env text).
Proof. intros w r w' H. by apply sh_inv in H as [-> _]. Qed.

Lemma keeps_file_read_file path : keeps_file (read_file env path).
Proof. by intros w r w' [= <- <-]. Qed.

Lemma keeps_file_exists path : keeps_file (os_path_exists env path).
Proof. by intros w r w' [= <- <-]. Qed.

Lemma keeps_file_createBug p t d : keeps_file (lp_bugs_createBug env p t d).
Proof. by intros w r w' [= <- <-]. Qed.

Lemma keeps_file_cache_get d key : keeps_file (cache_get d key).
Proof. apply keeps_file_lift. Qed.

Lemma keeps_file_exit {A} code : keeps_file (@sys_exit A code).
Proof. apply keeps_file_raise. Qed.

End KeepsFileSteps.

Create HintDb keeps.

#[local] Hint Resolve keeps_file_ret keeps_file_raise keeps_file_lift
  keeps_file_emit keeps_file_print keeps_file_input keeps_file_sh
  keeps_file_read_file keeps_file_exists keeps_file_createBug
  keeps_file_cache_get keeps_file_exit : keeps.

Ltac keeps_step :=
  match goal with
  | |- keeps_file (_ ≫= _) => apply keeps_file_bind; [|intros ?]
  | |- keeps_file (if ?b then _ else _) => destruct b
  | |- keeps_file (let '(_, _) := ?x in _) => destruct x
  | |- keeps_file (catch _ _ _) => apply keeps_file_catch
  | |- keeps_file _ => solve [eauto with keeps]
  end.

Ltac keeps := repeat keeps_step.

Section Stages.

Variable env : Env.

Lemma keeps_file_checkout : keeps_file (checkout_main_and_pull env).
Proof. unfold checkout_main_and_pull. keeps. Qed.

Lemma keeps_file_create_release_bug old rv :
  keeps_file (create_release_bug env old rv).
Proof. unfold create_release_bug, create_bug. keeps. Qed.

Lemma keeps_file_ask_bug_id lines bug_id : keeps_file (ask_bug_id lines bug_id).
Proof.
  revert bug_id. induction lines as [|l lines IH]; intros bug_id; simpl; keeps.
Qed.

Lemma keeps_file_prepare old rv id cl :
  keeps_file (prepare_git_branch env old rv id cl).
Proof.
  unfold prepare_git_branch, check_changelog, write_file. keeps.
  - apply keeps_file_checkout.
  - intros w r w'. apply keeps_file_ask_bug_id.
Qed.

Lemma keeps_file_branch_stage st rv old cache :
  keeps_file (branch_stage env st rv old cache).
Proof. unfold branch_stage. keeps. apply keeps_file_prepare. Qed.

(** For a pre-merge stage, [main] is the pre-merge block unless the flag
    is set. *)
Lemma main_premerge_stage st rv w :
  stage_in st [All; CreateReleaseBug; PrepareGitBranch] = true ->
  main env st rv w =
    if bool_decide (__getitem__ (__init__ rv (w_file w)) "premerge-complete"
                    = Ok (VBool true))
    then postmerge env st rv (__init__ rv (w_file w)) w
    else (premerge env st rv (__init__ rv (w_file w)) ≫=
            fun _ => postmerge env st rv (__init__ rv (w_file w))) w.
Proof.
  intros Hst. unfold main. erewrite bind_ok by reflexivity.
  assert (bool_decide (st = PurgeCache) = false) as ->
    by (by destruct st).
  erewrite (bind_ok (mret ())) by reflexivity. rewrite Hst.
  unfold cache_get.
  destruct (getitem_total (__init__ rv (w_file w)) "premerge-complete") as [x Hx].
  rewrite Hx.
  destruct (decide (x = VBool true)) as [->|Hne].
  - rewrite bool_decide_eq_true_2 by done.
    by erewrite bind_ok by reflexivity.
  - rewrite (bool_decide_eq_false_2 (Ok x = _)) by congruence.
    unfold mbind, M_bind, lift. cbv beta iota.
    by rewrite (bool_decide_eq_false_2 (x = _)) by done.
Qed.

Lemma handoff_not_ok st cache bug_id w u w' :
  stage_in st [All; CreateReleaseBug; PrepareGitBranch] = true ->
  handoff st cache bug_id w <> (Ok u, w').
Proof.
  intros Hst. unfold handoff. rewrite Hst.
  intros (? & w1 & _ & H)%bind_ok_inv.
  apply bind_ok_inv in H as (? & w2 & _ & H).
  apply bind_ok_inv in H as (? & w3 & _ & H).
  apply bind_ok_inv in H as (? & w4 & _ & H).
  apply bind_ok_inv in H as (? & w5 & _ & H).
  discriminate H.
Qed.

Lemma premerge_not_ok st rv cache w u w' :
  stage_in st [All; CreateReleaseBug; PrepareGitBranch] = true ->
  premerge env st rv cache w <> (Ok u, w').
Proof.
  intros Hst. unfold premerge.
  intros ([old c1] & w1 & _ & H)%bind_ok_inv.
  apply bind_ok_inv in H as ([b c2] & w2 & _ & H).
  apply bind_ok_inv in H as (? & w3 & _ & H).
  by apply handoff_not_ok in H.
Qed.

End Stages.

(** X14. The [create-release-bug] stage run on its own marks the whole
    pre-merge phase as done: when it exits with status 0 the flag
    [premerge-complete] is in the file, although no branch was prepared, and
    a later run of the composite stage for the version goes straight to the
    merge confirmation. *)
Theorem create_release_bug_stage_sets_flag (env : Env) (rv : string)
    (w w1 : world) :
  __getitem__ (__init__ rv (w_file w)) "premerge-complete" <> Ok (VBool true) ->
  main env CreateReleaseBug rv w = (Raise (SystemExit 0), w1) ->
  __getitem__ (__init__ rv (w_file w1)) "premerge-complete" = Ok (VBool true) /\
  forall w2, w_file w2 = w_file w1 ->
    main env All rv w2 =
      (confirm_merged ≫= fun _ => stages env All rv (__init__ rv (w_file w2))) w2.
Proof.
  intros Hflag Hrun.
  rewrite main_premerge_stage, bool_decide_eq_false_2 in Hrun by done.
  assert (__getitem__ (__init__ rv (w_file w1)) "premerge-complete"
          = Ok (VBool true)) as Hset.
  { apply bind_inv in Hrun as [(e & Hp & He)|(u & w' & Hp & _)].
    - injection He as <-.
      apply (premerge_exit0 env CreateReleaseBug rv (__init__ rv (w_file w)) w w1);
        [apply init_has_entry | done].
    - by apply premerge_not_ok in Hp. }
  split; [done|]. intros w2 Hw.
  rewrite main_all, Hw. by rewrite bool_decide_eq_true_2.
Qed.

Lemma create_release_bug_stage_sets_flag_witness :
  let w := {| w_file := None; w_stdin := [""; "y"]; w_trace := [] |} in
  exists w1,
    main (env0 2024) CreateReleaseBug "24.1" w = (Raise (SystemExit 0), w1) /\
    __getitem__ (__init__ "24.1" (w_file w1)) "premerge-complete" = Ok (VBool true).
Proof.
  intros w. eexists. split; [vm_compute; reflexivity|].
  refine (proj1 (create_release_bug_stage_sets_flag (env0 2024) "24.1" w _ _ _));
    [vm_compute; discriminate | vm_compute; reflexivity].
Defined.

Section PrepareStage.

Variable env : Env.

Lemma get_old_version_file cache w r w' :
  get_old_version env cache w = (r, w') ->
  w_file w' = w_file w \/
  exists x d', __setitem__ cache "old_version" x = Ok (d', w_file w').
Proof.
  unfold get_old_version.
  intros [(e & H & _)|(likely & w1 & H1 & H)]%bind_inv.
  { left. by apply keeps_file_sh in H. }
  apply keeps_file_sh in H1.
  apply bind_inv in H as [(e & H & _)|(response & w2 & H2 & H)].
  { left. apply keeps_file_input in H. congruence. }
  apply keeps_file_input in H2.
  apply bind_inv in H as [(e & H & _)|(c & w3 & H3 & H)].
  - left. unfold cache_set in H.
    destruct (__setitem__ _ _ _) as [[? ?]|?]; [done|].
    injection H as _ <-. congruence.
  - injection H as _ <-. right.
    apply cache_set_inv in H3 as (Hs & _). eauto.
Qed.

Lemma resolve_old_version_flag rv w r w' :
  resolve_old_version env (__init__ rv (w_file w)) w = (r, w') ->
  __getitem__ (__init__ rv (w_file w')) "premerge-complete" =
  __getitem__ (__init__ rv (w_file w)) "premerge-complete".
Proof.
  unfold resolve_old_version.
  intros [(e & H & _)|(cached & w1 & H1 & H)]%bind_inv.
  { apply keeps_file_cache_get in H. by rewrite H. }
  apply keeps_file_cache_get in H1.
  destruct (truthy_value cached).
  - injection H as _ <-. by rewrite H1.
  - assert (exists r0, get_old_version env (__init__ rv (w_file w)) w1 = (r0, w'))
      as [r0 Hg].
    { apply bind_inv in H as [(e & H & _)|([v c] & w2 & H2 & H)]; [eauto|].
      injection H as _ <-. eauto. }
    apply get_old_version_file in Hg as [Hf|(x & d' & Hs)].
    + by rewrite Hf, H1.
    + by destruct (setitem_frame _ _ _ "old_version" "premerge-complete" x
                     ltac:(done) Hs) as [_ ?].
Qed.

Lemma premerge_prepare_only rv w r w' :
  premerge env PrepareGitBranch rv (__init__ rv (w_file w)) w = (r, w') ->
  (exists e, r = Raise e /\ e <> SystemExit 0) /\
  __getitem__ (__init__ rv (w_file w')) "premerge-complete" =
  __getitem__ (__init__ rv (w_file w)) "premerge-complete".
Proof.
  unfold premerge.
  intros [(e & H & ->)|([old c1] & w1 & H1 & H)]%bind_inv.
  { split; [|by eapply resolve_old_version_flag].
    exists e. split; [done|]. intros ->.
    by apply (no_exit0_resolve env _ _ _ _ H). }
  apply resolve_old_version_flag in H1.
  change (bug_stage env PrepareGitBranch rv old c1) with
    (mret (None, c1) : M (option value * CachedDict)) in H.
  erewrite bind_ok in H by reflexivity. cbv beta iota in H.
  apply bind_inv in H as [(e & H & ->)|(u & w3 & H3 & H)].
  { split.
    - exists e. split; [done|]. intros ->.
      by apply (no_exit0_branch_stage env _ _ _ _ _ _ _ H).
    - apply keeps_file_branch_stage in H. by rewrite H. }
  apply keeps_file_branch_stage in H3.
  unfold handoff in H. change (stage_in PrepareGitBranch _) with true in H.
  cbv iota in H.
  apply bind_inv in H as [(e & H & _)|(? & w4 & H4 & H)]; [done|].
  apply print_inv in H4 as [_ ->].
  injection H as <- <-. split; [by eexists|]. simpl. by rewrite H3.
Qed.

End PrepareStage.

(** X15. The [prepare-git-branch] stage run on its own never finishes the
    pre-merge phase: started with the flag unset it never returns normally
    and never exits with status 0 (once the branch is prepared the hand-over
    message needs the bug identifier of the bug stage, which did not run),
    and the flag [premerge-complete] in the file is as it was. *)
Theorem prepare_stage_never_completes (env : Env) (rv : string) (w w' : world)
    (r : result unit) :
  __getitem__ (__init__ rv (w_file w)) "premerge-complete" <> Ok (VBool true) ->
  main env PrepareGitBranch rv w = (r, w') ->
  (exists e, r = Raise e /\ e <> SystemExit 0) /\
  __getitem__ (__init__ rv (w_file w')) "premerge-complete" =
  __getitem__ (__init__ rv (w_file w)) "premerge-complete".
Proof.
  intros Hflag Hrun.
  rewrite main_premerge_stage, bool_decide_eq_false_2 in Hrun by done.
  apply bind_inv in Hrun as [(e & Hp & ->)|(u & w1 & Hp & _)].
  - by apply premerge_prepare_only in Hp.
  - by apply premerge_not_ok in Hp.
Qed.

Lemma prepare_stage_never_completes_witness :
  let w := {| w_file := Some {[ "24.1" := {[ "old_version" := VStr "23.4";
                                             "bug_id" := VInt 7;
                                             "changelog" := VStr " - fix" ]} ]};
              w_stdin := [""; "y"]; w_trace := [] |} in
  exists w',
    main (env0 2024) PrepareGitBranch "24.1" w = (Raise UnboundLocalError, w') /\
    head (w_trace w') = Some (EPrint "Now push your branch and nag a teammate to review it") /\
    __getitem__ (__init__ "24.1" (w_file w')) "premerge-complete" =
    __getitem__ (__init__ "24.1" (w_file w)) "premerge-complete".
Proof.
  intros w. eexists. split; [vm_compute; reflexivity|].
  split; [reflexivity|].
  refine (proj2 (prepare_stage_never_completes (env0 2024) "24.1" w _ _ _ _));
    [vm_compute; discriminate | vm_compute; reflexivity].
Defined.

(** ** Branch checks *)

(** X16. [checkout_main_and_pull] changes nothing without consent: it runs
    [git checkout main] and [git pull] only after an affirmative answer of
    the operator, and it returns normally only if the current branch was
    reported as main or the checkout succeeded, and HEAD was reported equal
    to its upstream or the pull succeeded. *)
Theorem checkout_main_and_pull_guard (env : Env) (w w' : world)
    (r : result unit) :
  checkout_main_and_pull env w = (r, w') ->
  (ESh "git checkout main" ∈ w_trace w' ->
   ESh "git checkout main" ∈ w_trace w \/
   exists answer rest, w_stdin w = answer :: rest /\ affirmative answer = true) /\
  (ESh "git pull" ∈ w_trace w' ->
   ESh "git pull" ∈ w_trace w \/
   exists answer, answer ∈ w_stdin w /\ affirmative answer = true) /\
  (r = Ok () ->
   ((exists tr out, shell env tr "git branch --show-current" = Some out /\
                    rstrip out = "main") \/
    (exists tr out, shell env tr "git checkout main" = Some out)) /\
   ((exists tr1 tr2 out1 out2,
       shell env tr1 "git rev-parse HEAD" = Some out1 /\
       shell env tr2 "git rev-parse @{u}" = Some out2 /\
       rstrip out1 = rstrip out2) \/
    (exists tr out, shell env tr "git pull" = Some out))).
Proof.
  intros H. destruct w as [f0 lines tr].
  unfold checkout_main_and_pull, sys_exit, raise, mbind, M_bind, input, sh,
    print, emit, lift, mret, M_ret, set_trace, of_option in H.
  split_and!.
  - intros Hin. run_in H; trace_cases; bool_facts; try (by left).
    all: right; do 2 eexists; split; eauto.
  - intros Hin. run_in H; trace_cases; bool_facts; try (by left).
    all: right; eexists; split; [|eassumption]; set_solver.
  - intros ->. run_in H; bool_facts; split; eauto 10.
Qed.

Lemma checkout_main_and_pull_guard_witness :
  let env := env_sh (fun cmd =>
    if bool_decide (cmd = "git branch --show-current") then Some "main"
    else Some "0a1b2c3") in
  let w := {| w_file := None; w_stdin := ["n"]; w_trace := [] |} in
  exists w',
    checkout_main_and_pull env w = (Ok (), w') /\
    w_stdin w' = ["n"] /\
    w_trace w' = [ESh "git rev-parse @{u}"; ESh "git rev-parse HEAD";
                  ESh "git branch --show-current"] /\
    (ESh "git pull" ∈ w_trace w' ->
     ESh "git pull" ∈ w_trace w \/
     exists answer, answer ∈ w_stdin w /\ affirmative answer = true).
Proof.
  intros env w. eexists. split; [vm_compute; reflexivity|].
  split; [reflexivity|]. split; [reflexivity|].
  refine (proj1 (proj2 (checkout_main_and_pull_guard env w _ _ _))).
  vm_compute; reflexivity.
Defined.

(** ** The release bug *)

Lemma ends_with_space_rstrip s : ends_with_space (rstrip s) = false.
Proof.
  induction s as [|c r IH]; [done|]. cbn [rstrip].
  destruct (rstrip r) as [|d r'] eqn:E.
  - destruct (is_space c) eqn:Hc; [done|]. simpl. by rewrite Hc.
  - done.
Qed.

Lemma template_not_file NR TS NC ND NB CL :
  truthy (BUG_TEMPLATE NR TS NC ND NB CL) &&
  startswith "@" (BUG_TEMPLATE NR TS NC ND NB CL) = false.
Proof. done. Qed.

(** X17. [create_release_bug] files a bug only with consent and only as
    shown: when it returns, either the operator declined, the identifier is
    the empty string and no bug was created, or the operator agreed and the
    project's bug "Release V" was created with exactly the description that
    was printed before the question, the rendered template; the changelog
    handed back has no trailing whitespace. *)
Theorem create_release_bug_result (env : Env) (old : value) (rv : string)
    (w w' : world) (bug_id : value) (changelog : string) :
  create_release_bug env old rv w = (Ok (bug_id, changelog), w') ->
  ends_with_space changelog = false /\
  exists answer rest,
    w_stdin w = answer :: rest /\
    ((affirmative answer = false /\ bug_id = VStr "" /\
      forall p t d, ECreateBug p t d ∈ w_trace w' -> ECreateBug p t d ∈ w_trace w)
     \/
     (affirmative answer = true /\
      exists id span nc nd nb,
        bug_id = VInt id /\
        (forall p t d, ECreateBug p t d ∈ w_trace w' ->
           ECreateBug p t d ∈ w_trace w \/
           p = PROJECT /\ t = "Release " +:+ rv /\
           d = BUG_TEMPLATE rv (drop_last 4 span) nc nd nb changelog /\
           EPrint d ∈ w_trace w'))).
Proof.
  intros H. destruct w as [f0 lines tr].
  unfold create_release_bug, create_bug, read_file, lp_bugs_createBug,
    mbind, M_bind, input, sh, print, emit, lift, mret, M_ret, set_trace,
    of_option in H.
  run_in H;
    try match goal with
        | Hx : _ && startswith "@" _ = true |- _ =>
            by rewrite template_not_file in Hx
        end; subst.
  - split; [apply ends_with_space_rstrip|].
    do 2 eexists. split; [done|]. right. split; [done|].
    do 5 eexists. split; [done|].
    intros p t d Hin. trace_cases; [|by left].
    injection Hin as -> -> ->. right. split_and!; try done.
    set_solver.
  - split; [apply ends_with_space_rstrip|].
    do 2 eexists. split; [done|]. left. split_and!; try done.
    intros p t d Hin. by trace_cases.
Qed.

Lemma create_release_bug_result_witness :
  let w := {| w_file := None; w_stdin := ["n"; ""]; w_trace := [] |} in
  exists cl w',
    create_release_bug (env0 2024) (VStr "23.4") "24.1" w = (Ok (VStr "", cl), w') /\
    ends_with_space cl = false.
Proof.
  intros w. do 2 eexists. split; [vm_compute; reflexivity|].
  refine (proj1 (create_release_bug_result (env0 2024) (VStr "23.4") "24.1" w
                   _ (VStr "") _ _)).
  vm_compute; reflexivity.
Defined.

(** ** The announcement *)

Section Replace.

Implicit Types (old new s a r rest : string).

Lemma replace_go_skip old new k s :
  replace_go old new k s = replace_go old new 0 (drop k s).
Proof.
  revert k. induction s as [|c s IH]; intros [|k]; try done.
  simpl drop. by rewrite <- IH.
Qed.

Lemma replace_go_match old new r :
  old <> "" -> replace_go old new 0 (old +:+ r) = new +:+ replace_go old new 0 r.
Proof.
  intros Hne. destruct old as [|c old]; [done|].
  rewrite append_cons. cbn [replace_go].
  rewrite <- append_cons, startswith_self_app.
  rewrite replace_go_skip. do 2 f_equal.
  replace (String.length (String c old) - 1)%nat with (String.length old)
    by (simpl; lia).
  apply drop_length_app.
Qed.

Lemma replace_go_free old new a rest :
  free_until old a rest = true ->
  replace_go old new 0 (a +:+ rest) = a +:+ replace_go old new 0 rest.
Proof.
  induction a as [|c a IH]; [done|]. cbn [free_until].
  intros [H1 H2]%andb_true_iff. apply negb_true_iff in H1.
  rewrite append_cons in *. cbn [replace_go]. by rewrite H1, (IH H2).
Qed.

Lemma replace_go_whole old new s :
  free_until old s "" = true -> replace_go old new 0 s = s.
Proof.
  intros H. rewrite <- (append_nil_r s) at 1.
  by rewrite (replace_go_free _ _ _ _ H), append_nil_r.
Qed.

Lemma splitlines_one_line a s :
  one_line a = true -> splitlines (a +:+ String LF s) = a :: splitlines s.
Proof.
  induction a as [|c a IH]; [intros _; apply splitlines_lf|].
  cbn [one_line]. intros [Hc Ha]%andb_true_iff. apply negb_true_iff in Hc.
  rewrite append_cons, splitlines_cons, Hc. by rewrite (IH Ha).
Qed.

Lemma only_lf_breaks_app a s :
  only_lf_breaks (a +:+ s) = only_lf_breaks a && only_lf_breaks s.
Proof.
  induction a as [|c a IH]; [done|].
  rewrite append_cons. cbn [only_lf_breaks]. by rewrite IH, andb_assoc.
Qed.

End Replace.

Section Email.

Variables NR TS NC ND NB CL : string.
Hypothesis fields_free :
  Forall (fun f => marker_free f = true) [NR; TS; NC; ND; NB; CL].
Hypothesis fields_lf :
  Forall (fun f => only_lf_breaks f = true) [NR; TS; NC; ND; NB; CL].

Lemma field_lf f : f ∈ [NR; TS; NC; ND; NB; CL] -> only_lf_breaks f = true.
Proof. intros Hf. rewrite Forall_forall in fields_lf. by apply fields_lf. Qed.

Lemma notes_body_lf : only_lf_breaks (notes_body NR TS NC ND NB) = true.
Proof.
  unfold notes_body. rewrite !only_lf_breaks_app.
  rewrite !(field_lf NR), (field_lf TS), (field_lf NC), (field_lf ND),
    (field_lf NB) by set_solver.
  reflexivity.
Qed.

Lemma notes_body_free rest :
  free_until CHANGELOG_MARK (notes_body NR TS NC ND NB) rest = true.
Proof.
  pose proof (notes_free_changelog NR TS NC ND NB CL fields_free rest) as H.
  change (notes_section NR TS NC ND NB)
    with (nl +:+ nl +:+ notes_body NR TS NC ND NB) in H.
  rewrite !free_until_app in H.
  by apply andb_true_iff in H as [_ [_ ?]%andb_true_iff].
Qed.

Lemma compose_email_rendered :
  compose_email (BUG_TEMPLATE NR TS NC ND NB CL) =
    notes_body NR TS NC ND NB +:+ THANKS +:+ nl +:+ CL.
Proof.
  assert (contains CHANGELOG_MARK CL = false) as Hcl.
  { rewrite Forall_forall in fields_free.
    specialize (fields_free CL ltac:(set_solver)).
    unfold marker_free in fields_free.
    apply andb_true_iff in fields_free as [_ H]. by apply negb_true_iff in H. }
  unfold compose_email.
  change (BUG_TEMPLATE NR TS NC ND NB CL)
    with (RELEASE_NOTES_MARK +:+
          String LF (String LF (notes_body NR TS NC ND NB +:+
                                CHANGELOG_MARK +:+ nl +:+ CL +:+ nl))).
  rewrite splitlines_one_line by done. rewrite splitlines_lf.
  cbn [list.drop].
  replace (notes_body NR TS NC ND NB +:+ CHANGELOG_MARK +:+ nl +:+ CL +:+ nl)
    with ((notes_body NR TS NC ND NB +:+ CHANGELOG_MARK +:+ nl +:+ CL) +:+ nl)
    by (by rewrite !append_assoc).
  rewrite drop_0, join_splitlines.
  2:{ rewrite !only_lf_breaks_app, notes_body_lf, (field_lf CL) by set_solver.
      reflexivity. }
  unfold replace. change CHANGELOG_MARK with "== Changelog ==" at 1. cbv iota.
  rewrite replace_go_free by apply notes_body_free.
  rewrite replace_go_match by done.
  rewrite replace_go_whole; [done|].
  rewrite free_until_app. apply andb_true_iff. split.
  - by apply (free_until_first "="%char).
  - by apply free_until_whole.
Qed.

End Email.

(** X18. The announcement built from the release bug: for a description
    rendered from the template, with no marker and no line boundary but the
    line feed inside the fields, the email is the release notes without the
    marker line and the blank line after it, then the thanks in place of the
    changelog marker, then the changelog body; the final line feed of the
    description is gone. *)
Theorem email_of_description (NR TS NC ND NB CL : string) :
  Forall (fun f => marker_free f = true) [NR; TS; NC; ND; NB; CL] ->
  Forall (fun f => only_lf_breaks f = true) [NR; TS; NC; ND; NB; CL] ->
  compose_email (BUG_TEMPLATE NR TS NC ND NB CL) =
    drop 2 (notes_section NR TS NC ND NB) +:+ THANKS +:+ nl +:+ CL.
Proof. intros. by apply compose_email_rendered. Qed.

Lemma email_of_description_witness :
  compose_email (BUG_TEMPLATE "24.1" "3 months" "12" "5" "7" " - fix a") =
    drop 2 (notes_section "24.1" "3 months" "12" "5" "7") +:+ THANKS +:+ nl +:+
    " - fix a".
Proof.
  apply (email_of_description "24.1" "3 months" "12" "5" "7" " - fix a");
    repeat constructor.
Defined.

(** ** Signing and the ChangeLog *)

Section Sign.

Variable env : Env.

Lemma sign_retry_ok lines gpg_call signed w u w' :
  sign_retry env lines gpg_call signed w = (Ok u, w') ->
  signed = true \/ exists tr, is_Some (shell env tr gpg_call).
Proof.
  revert signed w. induction lines as [|l lines IH]; intros signed w;
    cbn [sign_retry]; (destruct signed; [by left|]);
    intros (response & w1 & _ & H)%bind_ok_inv;
    (destruct (affirmative response); [|done]);
    apply bind_ok_inv in H as (s' & w2 & Hc & H); [done|].
  injection Hc as <- _.
  apply IH in H as [Hs|?]; [|by right].
  right. apply bool_decide_eq_true in Hs. eauto.
Qed.

End Sign.

(** X19. [build_tarball_and_sign] hands back a tarball only once it is
    signed: the path it returns is the output of [make-tarball], and the gpg
    call on that path has succeeded at some point of the run. *)
Theorem build_tarball_signed (env : Env) (w w' : world) (path : string) :
  build_tarball_and_sign env w = (Ok path, w') ->
  (exists tr out, shell env tr "./tools/make-tarball" = Some out /\
                  path = rstrip out) /\
  exists tr, is_Some (shell env tr ("gpg --armor --sign --detach-sig " +:+ path)).
Proof.
  unfold build_tarball_and_sign.
  intros (? & w1 & _ & H)%bind_ok_inv.
  apply bind_ok_inv in H as (tarball & w2 & Hsh & H).
  apply bind_ok_inv in H as (? & w3 & _ & H).
  apply bind_ok_inv in H as (signed & w4 & Hc & H).
  apply bind_ok_inv in H as (? & w5 & Hr & H).
  injection H as <- <-.
  apply sh_inv in Hsh as [_ Hsh].
  destruct (shell env (w_trace w1) "./tools/make-tarball") as [out|] eqn:E;
    [|done].
  injection Hsh as ->. split; [eauto|].
  unfold with_stdin in Hr. apply sign_retry_ok in Hr as [->|?]; [|done].
  injection Hc as Hc _. apply bool_decide_eq_true in Hc. eauto.
Qed.

Lemma build_tarball_signed_witness :
  let w := {| w_file := None; w_stdin := []; w_trace := [] |} in
  exists w',
    build_tarball_and_sign (env0 2024) w = (Ok "out", w') /\
    exists tr, is_Some (shell (env0 2024) tr "gpg --armor --sign --detach-sig out").
Proof.
  intros w. eexists. split; [vm_compute; reflexivity|].
  refine (proj2 (build_tarball_signed (env0 2024) w _ "out" _)).
  vm_compute; reflexivity.
Defined.

Section Emits.

Context {A B : Type} (P : event -> Prop).




Lemma emits_lift (r : result A) : emits P (lift r).
Proof. intros w r' w' [= <- <-]. by exists []. Qed.


End Emits.

Section EmitsSteps.

Variable env : Env.
Variable P : event -> Prop.








End EmitsSteps.


Section ChangeLog.

Variable env : Env.
Variable rv : string.
Variable changelog : value.




End ChangeLog.



Section Commit.

Variable env : Env.
Variable rv : string.




End Commit.


